(** * Cab booking server: the tool dispatcher, the resource and the prompt

    A shallow embedding of [server.py].  The module keeps two globals, the
    dictionary [bookings_db] and the integer [booking_counter]; its handlers
    are modelled as computations in a state-and-exception monad over them.

    Conventions.
    - A Python [str] is a sequence of code points below 0x110000,
      surrogates included.  It is represented by the [string] of the bytes
      of its UTF-8 encoding, a surrogate being encoded like the other code
      points of its range; [is_str] tells which byte strings stand for a
      [str], and [str_of_code_points] builds the one with given code
      points.  Concatenation and equality of [str] are those of the bytes.
    - The tool schemas published by [list_tools] declare every argument as a
      JSON string, so the argument mapping of [call_tool] is a finite map
      from keys to [str].
    - A Python [int] is a [Z].
    - [bookings_db] is an insertion-ordered dictionary: an association list
      in which assigning to a present key replaces the value in place and
      assigning to an absent key appends.
    - The three [list_*] handlers return constants and touch neither global;
      they are given as those constants. *)

From Stdlib Require Import ZArith String Ascii List Sorted Lia.
From Stdlib Require Import DecimalString DecimalZ DecimalPos.
From stdpp Require Import base option list strings gmap.

Local Open Scope Z_scope.

(** ** Python values *)

Definition nl : string := String "010"%char EmptyString.

(** [str(n)] for an [int]. *)
Definition str_int (n : Z) : string := NilZero.string_of_int (Z.to_int n).

(** [int(s)] on a decimal literal, the inverse of [str_int]. *)
Definition int_of_str (s : string) : option Z :=
  Z.of_int <$> NilZero.int_of_string s.

(** The program holds one float, the literal [50.00], and does no arithmetic
    on it.  A float is represented by its value when that value is integral. *)
Inductive pyfloat := FloatOfInt (whole : Z).

(** [str(x)] for a float with an integral value (below 1e16 in magnitude). *)
Definition str_float (x : pyfloat) : string :=
  match x with FloatOfInt n => str_int n +:+ ".0" end.

(** [s.upper()] on ASCII text: a-z become A-Z, the other characters stay.
    The program applies it to the status only, which it always sets to the
    ASCII text ["confirmed"]. *)
Definition upper_char (c : ascii) : ascii :=
  let n := N_of_ascii c in
  if ((97 <=? n) && (n <=? 122))%N then ascii_of_N (n - 32) else c.

Fixpoint upper (s : string) : string :=
  match s with
  | EmptyString => EmptyString
  | String c s' => String (upper_char c) (upper s')
  end.

(** ** Insertion-ordered dictionaries with [str] keys *)

Section Dict.
Context {V : Type}.

Definition dict := list (string * V).

(** [k in d] *)
Fixpoint dict_contains (k : string) (d : dict) : bool :=
  match d with
  | [] => false
  | (k', _) :: d' => if String.eqb k k' then true else dict_contains k d'
  end.

(** [d[k]], [None] standing for the absent key *)
Fixpoint dict_get (k : string) (d : dict) : option V :=
  match d with
  | [] => None
  | (k', v) :: d' => if String.eqb k k' then Some v else dict_get k d'
  end.

(** [d[k] = v] *)
Fixpoint dict_set (k : string) (v : V) (d : dict) : dict :=
  match d with
  | [] => [(k, v)]
  | (k', v') :: d' =>
      if String.eqb k k' then (k', v) :: d' else (k', v') :: dict_set k v d'
  end.

(** [list(d)]: the keys in insertion order *)
Definition dict_keys (d : dict) : list string := map fst d.
End Dict.

Arguments dict : clear implicits.

(** ** The data of the server *)

(** The dictionary written at [bookings_db[booking_id] = {...}]: seven fixed
    keys, in this order. *)
Record booking := Booking {
  booking_id : string;
  pickup_location : string;
  dropoff_location : string;
  pickup_datetime : string;
  cab_type : string;
  status : string;
  fare : pyfloat
}.

Record TextContent := mkTextContent { type : string; text : string }.

Record state := State {
  bookings_db : dict booking;
  booking_counter : Z
}.

(** The module-level initialisation: [bookings_db = {}],
    [booking_counter = 1000]. *)
Definition initial : state :=
  {| bookings_db := []; booking_counter := 1000 |}.

Inductive exn :=
| KeyError (key : string)
| ValueError (msg : string).

Inductive result (A : Type) :=
| Ok (a : A)
| Raise (e : exn).
Arguments Ok {A} a.
Arguments Raise {A} e.

(** ** The monad of the handlers: global state and exceptions *)

Definition M (A : Type) : Type := state -> result A * state.

Global Instance M_ret : MRet M := fun A a st => (Ok a, st).

Global Instance M_bind : MBind M := fun A B f m st =>
  match m st with
  | (Ok a, st') => f a st'
  | (Raise e, st') => (Raise e, st')
  end.

Global Instance M_fmap : FMap M := fun A B f m => a ← m; mret (f a).

Definition raise {A} (e : exn) : M A := fun st => (Raise e, st).

(** [arguments[key]] *)
Definition getitem (arguments : gmap string string) (key : string) : M string :=
  match arguments !! key with
  | Some v => mret v
  | None => raise (KeyError key)
  end.

Definition get_counter : M Z := fun st => (Ok (booking_counter st), st).

Definition set_counter (n : Z) : M unit := fun st =>
  (Ok tt, {| bookings_db := bookings_db st; booking_counter := n |}).

Definition get_db : M (dict booking) := fun st => (Ok (bookings_db st), st).

(** [bookings_db[key] = b] *)
Definition db_setitem (key : string) (b : booking) : M unit := fun st =>
  (Ok tt, {| bookings_db := dict_set key b (bookings_db st);
             booking_counter := booking_counter st |}).

(** [bookings_db[key]] *)
Definition db_getitem (key : string) : M booking := fun st =>
  match dict_get key (bookings_db st) with
  | Some b => (Ok b, st)
  | None => (Raise (KeyError key), st)
  end.

(** ** [call_tool] *)

(** The f-string returned by the [book_cab] branch. *)
Definition confirmation_text
    (booking_id pickup dropoff datetime cab_type : string) : string :=
  "Cab Booking Confirmed!" +:+ nl +:+ nl +:+
  "                        Booking ID: " +:+ booking_id +:+ nl +:+
  "                        Pickup: " +:+ pickup +:+ nl +:+
  "                        Drop-off: " +:+ dropoff +:+ nl +:+
  "                        Time: " +:+ datetime +:+ nl +:+
  "                        Cab Type: " +:+ cab_type +:+ nl +:+
  "                        Status: CONFIRMED" +:+ nl +:+
  "                        Estimated Fare: $50.00" +:+ nl +:+ nl +:+
  "                        Your driver details will be sent 30 minutes before pickup." +:+ nl +:+
  "                        ".

(** The f-string returned when [check_booking_status] finds the booking. *)
Definition status_text (b : booking) : string :=
  " Booking Status" +:+ nl +:+ nl +:+
  "                           Booking ID: " +:+ booking_id b +:+ nl +:+
  "                           Status: " +:+ upper (status b) +:+ nl +:+
  "                           Pickup: " +:+ pickup_location b +:+ nl +:+
  "                           Drop-off: " +:+ dropoff_location b +:+ nl +:+
  "                           Time: " +:+ pickup_datetime b +:+ nl +:+
  "                           Cab Type: " +:+ cab_type b +:+ nl +:+
  "                           Fare: $" +:+ str_float (fare b) +:+ nl +:+
  "                        ".

Definition not_found_text (booking_id : string) : string :=
  "Booking " +:+ booking_id +:+ " not found. Please check the booking ID.".

Definition unknown_tool_text (name : string) : string :=
  "Unknown tool: " +:+ name.

(** One entry of [available_cabs]. *)
Record cab := Cab { cab_class : string; count : Z; eta : string }.

Definition available_cabs : list cab :=
  [ Cab "Standard" 5 "3 mins"; Cab "Premium" 3 "5 mins"; Cab "Luxury" 1 "8 mins" ].

(** One line of the listing.  The bullet U+2022 that opens it is spelled,
    like every character, by its UTF-8 bytes. *)
Definition cab_line (c : cab) : string :=
  "• " +:+ cab_class c +:+ ": " +:+ str_int (count c) +:+
  " available (ETA: " +:+ eta c +:+ ")" +:+ nl.

(** [response = f"..."; for cab in available_cabs: response += f"..."] *)
Definition cabs_text (location : string) : string :=
  fold_left (fun response c => response +:+ cab_line c) available_cabs
    (" Available Cabs near " +:+ location +:+ ":" +:+ nl +:+ nl).

Definition text_content (s : string) : TextContent :=
  {| type := "text"; text := s |}.

Definition call_tool (name : string) (arguments : gmap string string)
  : M (list TextContent) :=
  if String.eqb name "book_cab" then
    pickup ← getitem arguments "pickup_location";
    dropoff ← getitem arguments "dropoff_location";
    datetime ← getitem arguments "pickup_datetime";
    cab_type ← getitem arguments "cab_type";
    counter ← get_counter;
    let booking_id := "CAB" +:+ str_int counter in
    _ ← set_counter (counter + 1);
    _ ← db_setitem booking_id
          {| booking_id := booking_id;
             pickup_location := pickup;
             dropoff_location := dropoff;
             pickup_datetime := datetime;
             cab_type := cab_type;
             status := "confirmed";
             fare := FloatOfInt 50 |};
    mret [ text_content
             (confirmation_text booking_id pickup dropoff datetime cab_type) ]
  else if String.eqb name "check_booking_status" then
    booking_id ← getitem arguments "booking_id";
    db ← get_db;
    if dict_contains booking_id db then
      booking ← db_getitem booking_id;
      mret [ text_content (status_text booking) ]
    else
      mret [ text_content (not_found_text booking_id) ]
  else if String.eqb name "list_available_cabs" then
    location ← getitem arguments "location";
    mret [ text_content (cabs_text location) ]
  else
    mret [ text_content (unknown_tool_text name) ].

(** ** [json.dumps(obj, indent=2)] on the values the store holds

    The resource serializes [bookings_db] with the standard encoder:
    [ensure_ascii] left at its default, item separator [","], key separator
    [": "], two spaces per nesting level.  The store holds dictionaries,
    [str] and one float, so the encoder is given on these. *)

#[local] Set Warnings "-register-all".

Inductive json :=
| JStr (s : string)
| JFloat (x : pyfloat)
| JObj (items : list (string * json)).

Definition dquote : ascii := ascii_of_N 34.
Definition backslash : ascii := ascii_of_N 92.

Definition hex_digit (n : N) : ascii :=
  if (n <? 10)%N then ascii_of_N (48 + n) else ascii_of_N (87 + n).

(** The UTF-8 bytes of one code point; a surrogate, which a [str] can
    hold, is encoded like the other code points of its range. *)
Definition utf8 (cp : N) : string :=
  (if cp <? 128 then String (ascii_of_N cp) EmptyString
   else if cp <? 2048 then
     String (ascii_of_N (192 + cp / 64))
       (String (ascii_of_N (128 + cp mod 64)) EmptyString)
   else if cp <? 65536 then
     String (ascii_of_N (224 + cp / 4096))
       (String (ascii_of_N (128 + (cp / 64) mod 64))
          (String (ascii_of_N (128 + cp mod 64)) EmptyString))
   else
     String (ascii_of_N (240 + cp / 262144))
       (String (ascii_of_N (128 + (cp / 4096) mod 64))
          (String (ascii_of_N (128 + (cp / 64) mod 64))
             (String (ascii_of_N (128 + cp mod 64)) EmptyString))))%N.

(** The [str] with the given code points. *)
Fixpoint str_of_code_points (cps : list N) : string :=
  match cps with
  | [] => EmptyString
  | cp :: cps' => utf8 cp +:+ str_of_code_points cps'
  end.

Definition is_continuation (c : ascii) : bool :=
  ((128 <=? N_of_ascii c) && (N_of_ascii c <? 192))%N.

(** The code points of a [str], read off its bytes.  A byte that does not
    start an encoding is passed on as it is; in a [str] there is none. *)
Fixpoint code_points (s : string) : list N :=
  match s with
  | EmptyString => []
  | String b0 s1 =>
      let n0 := N_of_ascii b0 in
      let single := n0 :: code_points s1 in
      if (n0 <? 192)%N then single
      else
        match s1 with
        | String b1 s2 =>
            let n1 := (N_of_ascii b1 - 128)%N in
            if negb (is_continuation b1) then single
            else if (n0 <? 224)%N then
              ((n0 - 192) * 64 + n1)%N :: code_points s2
            else
              match s2 with
              | String b2 s3 =>
                  let n2 := (N_of_ascii b2 - 128)%N in
                  if negb (is_continuation b2) then single
                  else if (n0 <? 240)%N then
                    (((n0 - 224) * 64 + n1) * 64 + n2)%N :: code_points s3
                  else
                    match s3 with
                    | String b3 s4 =>
                        let n3 := (N_of_ascii b3 - 128)%N in
                        if negb (is_continuation b3) then single
                        else
                          ((((n0 - 240) * 64 + n1) * 64 + n2) * 64 + n3)%N
                          :: code_points s4
                    | EmptyString => single
                    end
              | EmptyString => single
              end
        | EmptyString => single
        end
  end.

(** The byte strings that stand for a [str]: the encoding of code points
    below 0x110000, each in its shortest form. *)
Definition is_str (s : string) : bool :=
  String.eqb (str_of_code_points (code_points s)) s &&
  forallb (fun cp => cp <? 1114112)%N (code_points s).

Definition is_high_surrogate (v : N) : bool := ((55296 <=? v) && (v <=? 56319))%N.
Definition is_low_surrogate (v : N) : bool := ((56320 <=? v) && (v <=? 57343))%N.

(** ['{0:04x}'.format(n)], for [n] below 0x10000. *)
Definition hex4 (n : N) : string :=
  String (hex_digit ((n / 4096) mod 16))
    (String (hex_digit ((n / 256) mod 16))
       (String (hex_digit ((n / 16) mod 16))
          (String (hex_digit (n mod 16)) EmptyString))).

Definition u_escape (n : N) : string :=
  String backslash (String "u" (hex4 n)).

Definition high_surrogate (cp : N) : N :=
  N.lor 55296 (N.land (N.shiftr (cp - 65536) 10) 1023).

Definition low_surrogate (cp : N) : N :=
  N.lor 56320 (N.land (cp - 65536) 1023).

(** The replacement of one character by [encode_basestring_ascii]:
    [ESCAPE_DCT] first, then nothing for [' '..'~'], then the [\uXXXX] form,
    as a surrogate pair from 0x10000 on. *)
Definition escape_code_point (cp : N) : string :=
  match cp with
  | 34 => String backslash (String dquote EmptyString)
  | 92 => String backslash (String backslash EmptyString)
  | 10 => String backslash "n"
  | 13 => String backslash "r"
  | 9 => String backslash "t"
  | 8 => String backslash "b"
  | 12 => String backslash "f"
  | _ =>
      if ((32 <=? cp) && (cp <=? 126))%N then String (ascii_of_N cp) EmptyString
      else if (cp <? 65536)%N then u_escape cp
      else u_escape (high_surrogate cp) +:+ u_escape (low_surrogate cp)
  end%N.

Fixpoint escape_code_points (cps : list N) : string :=
  match cps with
  | [] => EmptyString
  | cp :: cps' => escape_code_point cp +:+ escape_code_points cps'
  end.

Definition escape (s : string) : string := escape_code_points (code_points s).

Definition encode_basestring_ascii (s : string) : string :=
  String dquote (escape s +:+ String dquote EmptyString).

(** [_indent * level] with [_indent = "  "] *)
Fixpoint indentation (level : nat) : string :=
  match level with
  | O => EmptyString
  | S l => "  " +:+ indentation l
  end.

(** [sep.join(chunks)] *)
Fixpoint join (sep : string) (chunks : list string) : string :=
  match chunks with
  | [] => EmptyString
  | [c] => c
  | c :: cs => c +:+ sep +:+ join sep cs
  end.

(** [_iterencode] and [_iterencode_dict], the chunks concatenated. *)
Fixpoint iterencode (v : json) (current_indent_level : nat) : string :=
  match v with
  | JStr s => encode_basestring_ascii s
  | JFloat x => str_float x
  | JObj [] => "{}"
  | JObj items =>
      let newline_indent := nl +:+ indentation (S current_indent_level) in
      let item_separator := "," +:+ newline_indent in
      "{" +:+ newline_indent +:+
      join item_separator
        (map (fun kv => encode_basestring_ascii (fst kv) +:+ ": " +:+
                        iterencode (snd kv) (S current_indent_level)) items) +:+
      nl +:+ indentation current_indent_level +:+ "}"
  end.

Definition json_dumps (v : json) : string := iterencode v 0.

(** The store as the encoder sees it: a dictionary of dictionaries. *)
Definition json_of_booking (b : booking) : json :=
  JObj [ ("booking_id", JStr (booking_id b));
         ("pickup_location", JStr (pickup_location b));
         ("dropoff_location", JStr (dropoff_location b));
         ("pickup_datetime", JStr (pickup_datetime b));
         ("cab_type", JStr (cab_type b));
         ("status", JStr (status b));
         ("fare", JFloat (fare b)) ].

Definition json_of_db (db : dict booking) : json :=
  JObj (map (fun kv => (fst kv, json_of_booking (snd kv))) db).

(** ** [read_resource] and [get_prompt] *)

(** What a caller hands to [read_resource] as [uri]: a [str], or the
    [AnyUrl] object that the SDK's decorator builds from the request, given
    here by the text [str()] renders it as. *)
Inductive uri_arg :=
| UriStr (s : string)
| UriAnyUrl (rendered : string).

Coercion UriStr : string >-> uri_arg.

(** [uri == literal]: an [AnyUrl] is equal to no [str]. *)
Definition uri_eq (uri : uri_arg) (literal : string) : bool :=
  match uri with
  | UriStr s => String.eqb s literal
  | UriAnyUrl _ => false
  end.

(** [f"{uri}"] *)
Definition uri_text (uri : uri_arg) : string :=
  match uri with
  | UriStr s => s
  | UriAnyUrl rendered => rendered
  end.

Definition read_resource (uri : uri_arg) : M string :=
  if uri_eq uri "booking://all" then
    db ← get_db;
    mret (json_dumps (json_of_db db))
  else
    raise (ValueError ("Unknown resource: " +:+ uri_text uri)).

Record PromptMessage := mkPromptMessage { role : string; content : TextContent }.

Definition assistant_guidelines : string :=
  "You are a professional cab booking assistant." +:+ nl +:+ nl +:+
  "Guidelines:" +:+ nl +:+
  "- Be friendly and efficient" +:+ nl +:+
  "- Always confirm booking details before finalizing" +:+ nl +:+
  "- Provide clear estimated fares" +:+ nl +:+
  "- Offer alternative cab types if needed" +:+ nl +:+
  "- Handle cancellations professionally" +:+ nl +:+ nl +:+
  "Available cab types:" +:+ nl +:+
  "- Standard: Budget-friendly option" +:+ nl +:+
  "- Premium: Comfortable mid-range" +:+ nl +:+
  "- Luxury: High-end experience" +:+ nl.

(** The returned dictionary has the single key ["messages"]; its value is
    the list below.  The [arguments] parameter is not read. *)
Definition get_prompt (name : string) : M (list PromptMessage) :=
  if String.eqb name "booking_assistant" then
    mret [ {| role := "system"; content := text_content assistant_guidelines |} ]
  else
    raise (ValueError ("Unknown prompt: " +:+ name)).

(** ** Requests and runs of the server *)

Inductive request :=
| CallTool (name : string) (arguments : gmap string string)
| ReadResource (uri : uri_arg)
| GetPrompt (name : string).

Inductive reply :=
| ToolResult (contents : list TextContent)
| ResourceText (body : string)
| PromptResult (messages : list PromptMessage).

Definition handle (r : request) : M reply :=
  match r with
  | CallTool name arguments => ToolResult <$> call_tool name arguments
  | ReadResource uri => ResourceText <$> read_resource uri
  | GetPrompt name => PromptResult <$> get_prompt name
  end.

(** One entry of the log of a run: the request and what its handler
    returned or raised. *)
Definition entry : Type := request * result reply.

(** The server handles the requests one after the other; an exception
    ends the request that raised it, not the run. *)
Fixpoint run (reqs : list request) (st : state) : list entry * state :=
  match reqs with
  | [] => ([], st)
  | r :: rest =>
      let '(out, st1) := handle r st in
      let '(log, st2) := run rest st1 in
      ((r, out) :: log, st2)
  end.

Definition exec (reqs : list request) (st : state) : state := snd (run reqs st).

Definition is_book_cab (r : request) : bool :=
  match r with
  | CallTool name _ => String.eqb name "book_cab"
  | _ => false
  end.

Definition succeeded {A} (out : result A) : bool :=
  match out with Ok _ => true | Raise _ => false end.

(** The successful [book_cab] calls of a log. *)
Definition creations (log : list entry) : list entry :=
  List.filter (fun e => is_book_cab (fst e) && succeeded (snd e)) log.

(** The identifier line 110 builds from the counter. *)
Definition make_id (counter : Z) : string := "CAB" +:+ str_int counter.

(** The identifiers handed out along a run, in order: one for each
    successful [book_cab], built from the counter the call found. *)
Fixpoint issued_ids (reqs : list request) (st : state) : list string :=
  match reqs with
  | [] => []
  | r :: rest =>
      let '(out, st1) := handle r st in
      (if is_book_cab r && succeeded out
       then [make_id (booking_counter st)] else [])
      ++ issued_ids rest st1
  end.

(** The counter an identifier carries: the decimal after ["CAB"]. *)
Definition id_counter (id : string) : option Z :=
  match id with
  | String "C" (String "A" (String "B" digits)) => int_of_str digits
  | _ => None
  end.

(** The states the server can be in. *)
Definition reachable (st : state) : Prop :=
  exists reqs, st = exec reqs initial.

(** ** Reading the serialized store back

    A reader for the JSON texts of the fragment above, after the standard
    decoder: whitespace is skipped between tokens, a string ends at the
    first unescaped quote, an object becomes a dictionary built by
    assigning its pairs in order. *)

Definition is_ws (c : ascii) : bool :=
  match N_of_ascii c with
  | 32 | 10 | 13 | 9 => true
  | _ => false
  end%N.

Fixpoint skip_ws (s : string) : string :=
  match s with
  | EmptyString => EmptyString
  | String c s' => if is_ws c then skip_ws s' else s
  end.

Definition hex_value (c : ascii) : option N :=
  let n := N_of_ascii c in
  if ((48 <=? n) && (n <=? 57))%N then Some (n - 48)%N
  else if ((97 <=? n) && (n <=? 102))%N then Some (n - 87)%N
  else if ((65 <=? n) && (n <=? 70))%N then Some (n - 55)%N
  else None.

(** The character a two-character escape stands for. *)
Definition unescape (c : ascii) : option ascii :=
  match N_of_ascii c with
  | 34 => Some dquote
  | 92 => Some backslash
  | 47 => Some "/"%char
  | 110 => Some (ascii_of_N 10)
  | 114 => Some (ascii_of_N 13)
  | 116 => Some (ascii_of_N 9)
  | 98 => Some (ascii_of_N 8)
  | 102 => Some (ascii_of_N 12)
  | _ => None
  end%N.

(** What the reader finds in the body of a string literal: a character
    written as itself or by a two-character escape, or the value of a
    [\uXXXX] escape. *)
Inductive scanned :=
| Raw (c : ascii)
| Escaped (v : N).

(** The body of a string literal, from after its opening quote up to its
    closing quote, and what follows it. *)
Fixpoint scan_units (s : string) : option (list scanned * string) :=
  match s with
  | EmptyString => None
  | String c s1 =>
      if Ascii.eqb c dquote then Some ([], s1)
      else if Ascii.eqb c backslash then
        match s1 with
        | String e s2 =>
            if Ascii.eqb e "u" then
              match s2 with
              | String h1 (String h2 (String h3 (String h4 s3))) =>
                  d1 ← hex_value h1; d2 ← hex_value h2;
                  d3 ← hex_value h3; d4 ← hex_value h4;
                  '(units, rest) ← scan_units s3;
                  Some (Escaped (((d1 * 16 + d2) * 16 + d3) * 16 + d4)%N :: units,
                        rest)
              | _ => None
              end
            else
              c' ← unescape e;
              '(units, rest) ← scan_units s2;
              Some (Raw c' :: units, rest)
        | EmptyString => None
        end
      else if (N_of_ascii c <? 32)%N then None
      else
        '(units, rest) ← scan_units s1;
        Some (Raw c :: units, rest)
  end.

(** The [str] scanned: a [\uXXXX] escape of a high surrogate directly
    followed by one of a low surrogate stands for one code point from
    0x10000 on, every other escape for the code point it names. *)
Fixpoint assemble (units : list scanned) : string :=
  match units with
  | [] => EmptyString
  | Raw c :: units' => String c (assemble units')
  | Escaped v :: units' =>
      match units' with
      | Escaped v2 :: units'' =>
          if is_high_surrogate v && is_low_surrogate v2 then
            utf8 (65536 + N.lor (N.shiftl (v - 55296) 10) (v2 - 56320))%N
            +:+ assemble units''
          else utf8 v +:+ assemble units'
      | _ => utf8 v +:+ assemble units'
      end
  end.

(** [py_scanstring]: the decoded [str] and what follows the closing
    quote. *)
Definition scanstring (s : string) : option (string * string) :=
  '(units, rest) ← scan_units s;
  Some (assemble units, rest).

Definition is_digit (c : ascii) : bool :=
  ((48 <=? N_of_ascii c) && (N_of_ascii c <=? 57))%N.

(** The longest prefix of digits, and the rest. *)
Fixpoint span_digits (s : string) : string * string :=
  match s with
  | EmptyString => (EmptyString, EmptyString)
  | String c s' =>
      if is_digit c then
        let '(ds, rest) := span_digits s' in (String c ds, rest)
      else (EmptyString, s)
  end.

(** A number literal with a fraction part is a float; the floats of the
    model are those written [n.0] with [n] as [str] prints it. *)
Definition scan_number (s : string) : option (pyfloat * string) :=
  let '(sign, s1) :=
    match s with
    | String "-" s' => ("-", s')
    | _ => (EmptyString, s)
    end in
  let '(digits, s2) := span_digits s1 in
  match s2 with
  | String "." s3 =>
      let '(frac, s4) := span_digits s3 in
      n ← int_of_str (sign +:+ digits);
      if String.eqb frac "0" && String.eqb (str_int n) (sign +:+ digits)
      then Some (FloatOfInt n, s4) else None
  | _ => None
  end.

(** [dict(pairs)] *)
Definition dict_of_pairs {V} (pairs : list (string * V)) : dict V :=
  fold_left (fun d kv => dict_set (fst kv) (snd kv) d) pairs [].

(** A value, and the members of an object from its first key on.  Both
    expect leading whitespace to be gone; [fuel] bounds the number of
    values and members read. *)
Fixpoint parse_value (fuel : nat) (s : string) : option (json * string) :=
  match fuel with
  | O => None
  | S fuel' =>
      match s with
      | EmptyString => None
      | String c s1 =>
          if Ascii.eqb c dquote then
            '(str, rest) ← scanstring s1;
            Some (JStr str, rest)
          else if Ascii.eqb c "{" then
            match skip_ws s1 with
            | String "}" rest => Some (JObj [], rest)
            | s2 =>
                '(pairs, rest) ← parse_members fuel' s2;
                Some (JObj (dict_of_pairs pairs), rest)
            end
          else
            '(x, rest) ← scan_number s;
            Some (JFloat x, rest)
      end
  end
with parse_members (fuel : nat) (s : string)
  : option (list (string * json) * string) :=
  match fuel with
  | O => None
  | S fuel' =>
      match s with
      | String c s1 =>
          if Ascii.eqb c dquote then
            '(key, s2) ← scanstring s1;
            match skip_ws s2 with
            | String ":" s3 =>
                '(v, s4) ← parse_value fuel' (skip_ws s3);
                match skip_ws s4 with
                | String "," s5 =>
                    '(pairs, rest) ← parse_members fuel' (skip_ws s5);
                    Some ((key, v) :: pairs, rest)
                | String "}" rest => Some ([(key, v)], rest)
                | _ => None
                end
            | _ => None
            end
          else None
      | EmptyString => None
      end
  end.

(** [json.loads(text)]: one value, with nothing but whitespace around it. *)
Definition json_loads (text : string) : option json :=
  '(v, rest) ← parse_value (S (String.length text)) (skip_ws text);
  match skip_ws rest with
  | EmptyString => Some v
  | _ => None
  end.

(** The booking a decoded dictionary stands for: its seven keys and
    nothing else. *)
Definition get_str (key : string) (items : dict json) : option string :=
  match dict_get key items with
  | Some (JStr s) => Some s
  | _ => None
  end.

Definition get_float (key : string) (items : dict json) : option pyfloat :=
  match dict_get key items with
  | Some (JFloat x) => Some x
  | _ => None
  end.

Definition booking_of_json (v : json) : option booking :=
  match v with
  | JObj items =>
      if (length items =? 7)%nat then
        i ← get_str "booking_id" items;
        p ← get_str "pickup_location" items;
        d ← get_str "dropoff_location" items;
        t ← get_str "pickup_datetime" items;
        c ← get_str "cab_type" items;
        s ← get_str "status" items;
        f ← get_float "fare" items;
        Some (Booking i p d t c s f)
      else None
  | _ => None
  end.

Definition db_of_json (v : json) : option (dict booking) :=
  match v with
  | JObj items =>
      mapM (fun kv => b ← booking_of_json (snd kv); Some (fst kv, b)) items
  | _ => None
  end.

(** ** Auxiliary notions used by the statements *)

(** The keys each branch of [call_tool] reads from [arguments], in the
    order it reads them (lines 103-106, 144 and 172). *)
Definition tool_keys (name : string) : list string :=
  if String.eqb name "book_cab" then
    ["pickup_location"; "dropoff_location"; "pickup_datetime"; "cab_type"]
  else if String.eqb name "check_booking_status" then ["booking_id"]
  else if String.eqb name "list_available_cabs" then ["location"]
  else [].

(** The first of [keys] that [arguments] lacks. *)
Fixpoint first_missing (keys : list string) (arguments : gmap string string)
  : option string :=
  match keys with
  | [] => None
  | k :: keys' =>
      match arguments !! k with
      | Some _ => first_missing keys' arguments
      | None => Some k
      end
  end.

(** What line 114 stores under [key]. *)
Definition stored_as (key : string) (b : booking) : Prop :=
  booking_id b = key /\ status b = "confirmed" /\ fare b = FloatOfInt 50.

(** The identifiers of [n] consecutive counters from 1000 on. *)
Definition ids_from_1000 (n : nat) : list string :=
  map (fun i => make_id (1000 + Z.of_nat i)) (seq 0 n).

(** The invariant of the two globals after [n] bookings. *)
Definition consistent (n : nat) (st : state) : Prop :=
  booking_counter st = 1000 + Z.of_nat n /\
  dict_keys (bookings_db st) = ids_from_1000 n /\
  Forall (fun kv => stored_as (fst kv) (snd kv)) (bookings_db st).

(** Objects whose keys are pairwise distinct at every level: the JSON
    values that are dictionaries all the way down. *)
Fixpoint distinct_keys (v : json) : Prop :=
  match v with
  | JObj items =>
      NoDup (map fst items) /\
      (fix all (l : list (string * json)) : Prop :=
         match l with
         | [] => True
         | kv :: l' => distinct_keys (snd kv) /\ all l'
         end) items
  | _ => True
  end.

(** Arithmetic with division by constants, and the comparisons it
    settles. *)
Ltac divmod := zify; Z.to_euclidean_division_equations; lia.

Ltac decide_ltb :=
  repeat match goal with
    | |- context [(?a <? ?b)%N] =>
        first [ replace (a <? b)%N with true by (symmetry; apply N.ltb_lt; divmod)
              | replace (a <? b)%N with false by (symmetry; apply N.ltb_ge; divmod) ]
    | |- context [(?a <=? ?b)%N] =>
        first [ replace (a <=? b)%N with true by (symmetry; apply N.leb_le; divmod)
              | replace (a <=? b)%N with false by (symmetry; apply N.leb_gt; divmod) ]
    end.

Ltac unfold_M :=
  unfold fmap, M_fmap, getitem, raise, get_counter, set_counter, get_db,
    db_setitem, db_getitem;
  unfold mbind, M_bind, mret, M_ret.

(** The booking that a successful [book_cab] stores. *)
Definition new_booking (st : state) (pickup dropoff datetime cab_type : string)
  : booking :=
  {| booking_id := make_id (booking_counter st);
     pickup_location := pickup;
     dropoff_location := dropoff;
     pickup_datetime := datetime;
     cab_type := cab_type;
     status := "confirmed";
     fare := FloatOfInt 50 |}.

(** Strings made of decimal digits, and texts that do not continue a
    number: used to delimit number literals. *)
Fixpoint all_digits (s : string) : bool :=
  match s with
  | EmptyString => true
  | String c s' => is_digit c && all_digits s'
  end.

Definition no_digit_ahead (s : string) : bool :=
  match s with
  | EmptyString => true
  | String c _ => negb (is_digit c)
  end.

(** The first character is none that [skip_ws] drops. *)
Definition no_ws_ahead (s : string) : bool :=
  match s with
  | EmptyString => true
  | String c _ => negb (is_ws c)
  end.

(** The requests used as concrete instances below. *)
Definition airport_ride : gmap string string :=
  {[ "pickup_location" := "Airport";
     "dropoff_location" := "Downtown";
     "pickup_datetime" := "2024-01-01T10:00:00";
     "cab_type" := "Premium" ]}.

Definition station_ride : gmap string string :=
  {[ "pickup_location" := "Station";
     "dropoff_location" := "Harbour";
     "pickup_datetime" := "2024-01-02T08:30:00";
     "cab_type" := "Standard" ]}.

Definition blank_pickup_ride : gmap string string :=
  {[ "pickup_location" := "";
     "dropoff_location" := "Downtown";
     "pickup_datetime" := "2024-01-01T10:00:00";
     "cab_type" := "Premium" ]}.

(** The text of one member of an object at nesting level [level], and the
    separator between two members. *)
Definition member_text (level : nat) (kv : string * json) : string :=
  encode_basestring_ascii (fst kv) +:+ ": " +:+ iterencode (snd kv) level.

Definition item_separator (level : nat) : string :=
  "," +:+ nl +:+ indentation level.

(** ** Discovery: [list_tools], [list_resources] and [list_prompts]

    The three handlers return constants.  A JSON schema of type object is
    kept as its type, its properties and its list of required keys. *)

Record property := Property {
  property_name : string;
  property_type : string;
  property_description : string
}.

Record schema := Schema {
  schema_type : string;
  properties : list property;
  required : list string
}.

(** A field of a pydantic model, [name: str = Field(description=...)]: it
    has no default. *)
Record model_field := ModelField {
  field_name : string;
  field_description : string
}.

(** The class [BookCabInput]. *)
Definition BookCabInput : list model_field :=
  [ ModelField "pickup_location" "Pickup location";
    ModelField "dropoff_location" "Drop-off location";
    ModelField "pickup_datetime" "Pickup date and time (ISO format)";
    ModelField "cab_type" "Type of cab (Standard/Premium/Luxury)" ].

(** [model_json_schema()] of a model whose fields are all [str] without a
    default: every field is a property of type string and is required.
    The titles that pydantic adds are not kept. *)
Definition model_json_schema (fields : list model_field) : schema :=
  {| schema_type := "object";
     properties :=
       map (fun f => Property (field_name f) "string" (field_description f))
         fields;
     required := map field_name fields |}.

Record Tool := mkTool {
  tool_name : string;
  tool_description : string;
  inputSchema : schema
}.

Definition list_tools : list Tool :=
  [ {| tool_name := "book_cab";
       tool_description :=
         "Books a cab with specified details. Returns booking confirmation.";
       inputSchema := model_json_schema BookCabInput |};
    {| tool_name := "check_booking_status";
       tool_description := "Checks the status of a booking by booking ID";
       inputSchema :=
         {| schema_type := "object";
            properties :=
              [ Property "booking_id" "string"
                  "The booking reference ID (e.g., CAB1001)" ];
            required := ["booking_id"] |} |};
    {| tool_name := "list_available_cabs";
       tool_description := "Lists all available cabs in a specific area";
       inputSchema :=
         {| schema_type := "object";
            properties :=
              [ Property "location" "string" "Location to search for cabs" ];
            required := ["location"] |} |} ].



Record Prompt := mkPrompt {
  prompt_name : string;
  prompt_description : string;
  prompt_arguments : list string
}.

Definition list_prompts : list Prompt :=
  [ {| prompt_name := "booking_assistant";
       prompt_description := "Professional cab booking assistant prompt";
       prompt_arguments := [] |} ].

(** ** What a run amounts to *)

(** The four strings [book_cab] reads, in the order it reads them. *)
Definition ride : Type := string * string * string * string.

Definition ride_of (arguments : gmap string string) : option ride :=
  pickup ← arguments !! "pickup_location";
  dropoff ← arguments !! "dropoff_location";
  datetime ← arguments !! "pickup_datetime";
  cab_type ← arguments !! "cab_type";
  Some (pickup, dropoff, datetime, cab_type).

(** The rides of the [book_cab] requests that carry all four keys. *)
Definition rides (reqs : list request) : list ride :=
  omap (fun r =>
          match r with
          | CallTool name arguments =>
              if String.eqb name "book_cab" then ride_of arguments else None
          | _ => None
          end) reqs.

(** Lines 110-122 on one ride. *)
Definition book (st : state) (r : ride) : state :=
  let '(pickup, dropoff, datetime, cab_type) := r in
  {| bookings_db :=
       dict_set (make_id (booking_counter st))
         (new_booking st pickup dropoff datetime cab_type) (bookings_db st);
     booking_counter := booking_counter st + 1 |}.

(** The entry stored for the ride number [i] of a run that starts in the
    initial state. *)
Definition nth_entry (i : nat) (r : ride) : string * booking :=
  let '(pickup, dropoff, datetime, cab_type) := r in
  let id := make_id (1000 + Z.of_nat i) in
  (id, {| booking_id := id;
          pickup_location := pickup;
          dropoff_location := dropoff;
          pickup_datetime := datetime;
          cab_type := cab_type;
          status := "confirmed";
          fare := FloatOfInt 50 |}).

(** ** Plain texts *)

(** A newline, or a printable ASCII character. *)
Definition is_plain (c : ascii) : bool :=
  let n := N_of_ascii c in
  (n =? 10)%N || ((32 <=? n) && (n <=? 126))%N.

Fixpoint all_plain (s : string) : bool :=
  match s with
  | EmptyString => true
  | String c s' => is_plain c && all_plain s'
  end.

(** ** Strings the reader gives back unchanged *)

(** No high surrogate directly followed by a low surrogate. *)
Fixpoint no_surrogate_pair (cps : list N) : bool :=
  match cps with
  | [] => true
  | a :: cps' =>
      match cps' with
      | b :: _ => negb (is_high_surrogate a && is_low_surrogate b)
      | [] => true
      end && no_surrogate_pair cps'
  end.

(** A [str] in which no two code points form a surrogate pair. *)
Definition clean_str (s : string) : bool :=
  is_str s && no_surrogate_pair (code_points s).


(** The characters [encode_basestring_ascii] writes as themselves or as
    a two-character escape. *)
Definition is_literal (cp : N) : bool :=
  (((32 <=? cp) && (cp <=? 126)) ||
   (cp =? 8) || (cp =? 9) || (cp =? 10) || (cp =? 12) || (cp =? 13))%N.

(** What the reader scans where the encoder wrote the code point [cp]. *)
Definition units_of (cp : N) : list scanned :=
  if is_literal cp then [Raw (ascii_of_N cp)]
  else if (cp <? 65536)%N then [Escaped cp]
  else [Escaped (high_surrogate cp); Escaped (low_surrogate cp)].

Definition starts_low (units : list scanned) : bool :=
  match units with
  | Escaped v :: _ => is_low_surrogate v
  | _ => false
  end.

Definition valid_code_point (cp : N) : bool := (cp <? 1114112)%N.

Definition clean_booking (b : booking) : bool :=
  clean_str (booking_id b) && clean_str (pickup_location b) &&
  clean_str (dropoff_location b) && clean_str (pickup_datetime b) &&
  clean_str (cab_type b) && clean_str (status b).

(** A store all of whose keys and strings are such. *)
Definition clean_db (db : dict booking) : bool :=
  forallb (fun kv => clean_str (fst kv) && clean_booking (snd kv)) db.

Fixpoint clean_strings (v : json) : Prop :=
  match v with
  | JStr s => clean_str s = true
  | JFloat _ => True
  | JObj items =>
      (fix all (l : list (string * json)) : Prop :=
         match l with
         | [] => True
         | kv :: l' =>
             (clean_str (fst kv) = true /\ clean_strings (snd kv)) /\ all l'
         end) items
  end.

(** A ride whose pickup is the two code points U+D83D U+DE00, and one
    whose strings lie outside ASCII. *)
Definition surrogate_pair_ride : gmap string string :=
  {[ "pickup_location" := str_of_code_points [55357; 56832]%N;
     "dropoff_location" := "Downtown";
     "pickup_datetime" := "2024-01-01T10:00:00";
     "cab_type" := "Premium" ]}.

Definition tokyo_ride : gmap string string :=
  {[ "pickup_location" := str_of_code_points [26481; 20140; 39365]%N;
     "dropoff_location" := str_of_code_points [67; 97; 102; 233; 32; 128662]%N;
     "pickup_datetime" := "2024-01-01T10:00:00";
     "cab_type" := str_of_code_points [55357]%N ]}.

(** * Properties *)

(** ** Decimal identifiers *)

Lemma int_of_str_str_int (n : Z) : int_of_str (str_int n) = Some n.
Proof.
  unfold int_of_str, str_int.
  rewrite NilZero.isi.
  - simpl. f_equal. apply DecimalZ.of_to.
  - destruct n; simpl; try discriminate.
    intros [= H]. now apply DecimalPos.Unsigned.to_uint_nonnil in H.
  - destruct n; simpl; try discriminate.
    intros [= H]. now apply DecimalPos.Unsigned.to_uint_nonnil in H.
Qed.

Lemma str_int_inj (m n : Z) : str_int m = str_int n -> m = n.
Proof.
  intros H. apply (f_equal int_of_str) in H.
  rewrite !int_of_str_str_int in H. congruence.
Qed.

Lemma id_counter_make_id (n : Z) : id_counter (make_id n) = Some n.
Proof. unfold make_id. simpl. apply int_of_str_str_int. Qed.

Lemma make_id_inj (m n : Z) : make_id m = make_id n -> m = n.
Proof.
  intros H. apply (f_equal id_counter) in H.
  rewrite !id_counter_make_id in H. congruence.
Qed.

(** ** Dictionaries *)

Section DictFacts.
Context {V : Type}.
Implicit Types (d : dict V) (k : string) (v : V).

Lemma dict_contains_get k d :
  dict_contains k d = true <-> is_Some (dict_get k d).
Proof.
  induction d as [|[k' v'] d IH]; simpl.
  - split; [discriminate | intros [? [=]]].
  - destruct (String.eqb k k'); [split; eauto | exact IH].
Qed.

Lemma dict_contains_keys k d :
  dict_contains k d = true <-> k ∈ dict_keys d.
Proof.
  induction d as [|[k' v'] d IH]; simpl.
  - split; [discriminate | intros H; inversion H].
  - rewrite elem_of_cons. destruct (String.eqb_spec k k') as [->|Hne].
    + split; auto.
    + rewrite IH. unfold dict_keys. tauto.
Qed.

Lemma dict_get_None k d : dict_get k d = None <-> k ∉ dict_keys d.
Proof.
  rewrite <- dict_contains_keys, dict_contains_get.
  destruct (dict_get k d); split; intros H; try done.
  destruct H; eauto.
Qed.

(** Assigning to an absent key appends. *)
Lemma dict_set_fresh k v d : k ∉ dict_keys d -> dict_set k v d = d ++ [(k, v)].
Proof.
  induction d as [|[k' v'] d IH]; simpl; [done|].
  rewrite not_elem_of_cons. intros [Hne Hnin].
  destruct (String.eqb_spec k k'); [done|]. now rewrite IH.
Qed.

(** Reading back what was assigned. *)
Lemma dict_get_set_eq k v d : dict_get k (dict_set k v d) = Some v.
Proof.
  induction d as [|[k' v'] d IH]; simpl.
  - now rewrite String.eqb_refl.
  - destruct (String.eqb_spec k k') as [->|Hne]; simpl.
    + now rewrite String.eqb_refl.
    + destruct (String.eqb_spec k k'); [done|exact IH].
Qed.

Lemma dict_get_set_ne k k' v d :
  k <> k' -> dict_get k' (dict_set k v d) = dict_get k' d.
Proof.
  intros Hne. induction d as [|[k0 v0] d IH]; simpl.
  - destruct (String.eqb_spec k' k); congruence.
  - destruct (String.eqb_spec k k0) as [->|Hne0]; simpl.
    + destruct (String.eqb_spec k' k0); congruence.
    + now rewrite IH.
Qed.

Lemma dict_get_elem k v d : dict_get k d = Some v -> (k, v) ∈ d.
Proof.
  induction d as [|[k0 v0] d IH]; simpl; [discriminate|].
  destruct (String.eqb_spec k k0) as [->|Hne].
  - intros [= ->]. apply elem_of_cons. now left.
  - intros H. apply elem_of_cons. right. auto.
Qed.

(** Building a dictionary from pairs with distinct keys keeps them all,
    in order. *)
Lemma dict_of_pairs_distinct (pairs : list (string * V)) :
  NoDup (map fst pairs) -> dict_of_pairs pairs = pairs.
Proof.
  unfold dict_of_pairs.
  enough (forall acc, NoDup (map fst (acc ++ pairs)) ->
            fold_left (fun d kv => dict_set (fst kv) (snd kv) d) pairs acc
            = acc ++ pairs) as H by (intros Hnd; exact (H [] Hnd)).
  induction pairs as [|[k v] pairs IH]; intros acc Hnd; simpl.
  - now rewrite app_nil_r.
  - rewrite dict_set_fresh.
    + rewrite IH; rewrite <- app_assoc; [done | exact Hnd].
    + rewrite map_app in Hnd. simpl in Hnd.
      apply NoDup_app in Hnd as (_ & Hdisj & _).
      intros Hin. apply (Hdisj k Hin). apply elem_of_cons. now left.
Qed.
End DictFacts.

(** ** One call of a handler *)

Lemma book_cab_ok arguments st pickup dropoff datetime cab_type :
  arguments !! "pickup_location" = Some pickup ->
  arguments !! "dropoff_location" = Some dropoff ->
  arguments !! "pickup_datetime" = Some datetime ->
  arguments !! "cab_type" = Some cab_type ->
  call_tool "book_cab" arguments st =
    (Ok [ text_content
            (confirmation_text (make_id (booking_counter st))
               pickup dropoff datetime cab_type) ],
     {| bookings_db :=
          dict_set (make_id (booking_counter st))
            (new_booking st pickup dropoff datetime cab_type) (bookings_db st);
        booking_counter := booking_counter st + 1 |}).
Proof.
  intros Hp Hd Ht Hc. unfold call_tool. simpl. unfold_M.
  now rewrite Hp, Hd, Ht, Hc.
Qed.

Lemma first_missing_None keys (arguments : gmap string string) :
  first_missing keys arguments = None <->
  forall k, k ∈ keys -> is_Some (arguments !! k).
Proof.
  induction keys as [|k keys IH]; simpl.
  - split; [intros _ k H; inversion H | done].
  - destruct (arguments !! k) eqn:Hk.
    + rewrite IH. split.
      * intros H k' [->|Hin]%elem_of_cons; eauto.
      * intros H k' Hin. apply H, elem_of_cons. now right.
    + split; [discriminate|]. intros H.
      destruct (H k) as [? Hs]; [apply elem_of_cons; now left|].
      congruence.
Qed.

Lemma first_missing_Some keys (arguments : gmap string string) k :
  first_missing keys arguments = Some k ->
  k ∈ keys /\ arguments !! k = None.
Proof.
  induction keys as [|k' keys IH]; simpl; [discriminate|].
  destruct (arguments !! k') eqn:Hk.
  - intros [Hin Hnone]%IH. split; [apply elem_of_cons; now right | done].
  - intros [= <-]. split; [apply elem_of_cons; now left | done].
Qed.

(** A call that lacks a key it reads raises [KeyError] for the first such
    key and leaves both globals as they were. *)
Lemma call_tool_missing name arguments st k :
  first_missing (tool_keys name) arguments = Some k ->
  call_tool name arguments st = (Raise (KeyError k), st).
Proof.
  unfold call_tool, tool_keys.
  destruct (String.eqb name "book_cab");
    [|destruct (String.eqb name "check_booking_status");
      [|destruct (String.eqb name "list_available_cabs")]];
    simpl; unfold_M;
    repeat match goal with
      | |- context [arguments !! ?key] =>
          destruct (arguments !! key) eqn:?; simpl
      end;
    intros [= <-] || discriminate; reflexivity.
Qed.

(** A call that has the keys it reads returns content. *)
Lemma call_tool_present name arguments st :
  first_missing (tool_keys name) arguments = None ->
  exists contents st', call_tool name arguments st = (Ok contents, st').
Proof.
  unfold call_tool, tool_keys.
  destruct (String.eqb name "book_cab");
    [|destruct (String.eqb name "check_booking_status");
      [|destruct (String.eqb name "list_available_cabs")]];
    simpl; unfold_M;
    repeat match goal with
      | |- context [arguments !! ?key] =>
          destruct (arguments !! key) eqn:?; simpl
      end;
    try discriminate; intros _; eauto.
  destruct (dict_contains s (bookings_db st)) eqn:Hin; eauto.
  apply dict_contains_get in Hin as [b Hb]. rewrite Hb. eauto.
Qed.

(** Every tool but [book_cab] leaves the globals alone. *)
Lemma call_tool_frame name arguments st :
  name <> "book_cab" -> snd (call_tool name arguments st) = st.
Proof.
  intros Hne. unfold call_tool.
  destruct (String.eqb_spec name "book_cab") as [|_]; [done|].
  destruct (String.eqb name "check_booking_status");
    [|destruct (String.eqb name "list_available_cabs")];
    simpl; unfold_M;
    repeat match goal with
      | |- context [arguments !! ?key] =>
          destruct (arguments !! key) eqn:?; simpl
      end; try reflexivity.
  destruct (dict_contains s (bookings_db st)); simpl; [|done].
  now destruct (dict_get s (bookings_db st)).
Qed.

Lemma read_resource_frame uri st : snd (read_resource uri st) = st.
Proof. unfold read_resource. now destruct (uri_eq uri "booking://all"). Qed.

Lemma get_prompt_frame name st : snd (get_prompt name st) = st.
Proof. unfold get_prompt. now destruct (String.eqb name "booking_assistant"). Qed.

(** ** Runs *)

Lemma handle_call_tool name arguments st :
  handle (CallTool name arguments) st =
    (match fst (call_tool name arguments st) with
     | Ok contents => Ok (ToolResult contents)
     | Raise e => Raise e
     end, snd (call_tool name arguments st)).
Proof.
  simpl. unfold fmap, M_fmap, mbind, M_bind, mret, M_ret.
  now destruct (call_tool name arguments st) as [[?|?] ?].
Qed.

Lemma handle_frame r st :
  is_book_cab r = false -> snd (handle r st) = st.
Proof.
  destruct r as [name arguments|uri|name]; simpl is_book_cab; intros Hb.
  - rewrite handle_call_tool. simpl. apply call_tool_frame.
    intros ->. simpl in Hb. discriminate.
  - simpl. unfold fmap, M_fmap, mbind, M_bind, mret, M_ret.
    pose proof (read_resource_frame uri st) as H.
    destruct (read_resource uri st) as [[?|?] ?]; exact H.
  - simpl. unfold fmap, M_fmap, mbind, M_bind, mret, M_ret.
    pose proof (get_prompt_frame name st) as H.
    destruct (get_prompt name st) as [[?|?] ?]; exact H.
Qed.

Lemma ids_from_1000_S n :
  ids_from_1000 (S n) = ids_from_1000 n ++ [make_id (1000 + Z.of_nat n)].
Proof. unfold ids_from_1000. now rewrite seq_S, map_app. Qed.

Lemma elem_of_ids_from_1000 id n :
  id ∈ ids_from_1000 n <->
  exists i, (i < n)%nat /\ id = make_id (1000 + Z.of_nat i).
Proof.
  unfold ids_from_1000. rewrite list_elem_of_fmap. split.
  - intros (i & -> & Hi%elem_of_seq). exists i. split; [lia|done].
  - intros (i & Hi & ->). exists i. split; [done|]. apply elem_of_seq. lia.
Qed.

(** The identifier built from the current counter is not yet a key. *)
Lemma fresh_id n st :
  consistent n st -> make_id (booking_counter st) ∉ dict_keys (bookings_db st).
Proof.
  intros (Hc & Hk & _). rewrite Hk, Hc, elem_of_ids_from_1000.
  intros (i & Hi & Heq%make_id_inj). lia.
Qed.

(** What one request does to a consistent state: a successful [book_cab]
    appends one booking under the identifier of the current counter and
    advances the counter; anything else changes nothing. *)
Lemma handle_step n st r :
  consistent n st ->
  if is_book_cab r && succeeded (fst (handle r st)) then
    exists b,
      stored_as (make_id (booking_counter st)) b /\
      snd (handle r st) =
        {| bookings_db := bookings_db st ++ [(make_id (booking_counter st), b)];
           booking_counter := booking_counter st + 1 |}
  else snd (handle r st) = st.
Proof.
  intros Hcons. destruct (is_book_cab r) eqn:Hb; simpl andb.
  2: now apply handle_frame.
  destruct r as [name arguments| |]; try discriminate.
  simpl in Hb. apply String.eqb_eq in Hb as ->.
  rewrite handle_call_tool.
  destruct (first_missing (tool_keys "book_cab") arguments) as [k|] eqn:Hm.
  - now rewrite (call_tool_missing _ _ _ _ Hm).
  - pose proof (proj1 (first_missing_None _ _) Hm) as Hall.
    destruct (Hall "pickup_location") as [p Hp]; [set_solver|].
    destruct (Hall "dropoff_location") as [d Hd]; [set_solver|].
    destruct (Hall "pickup_datetime") as [t Ht]; [set_solver|].
    destruct (Hall "cab_type") as [c Hc]; [set_solver|].
    rewrite (book_cab_ok _ _ _ _ _ _ Hp Hd Ht Hc). simpl.
    exists (new_booking st p d t c). split; [done|].
    now rewrite (dict_set_fresh _ _ _ (fresh_id _ _ Hcons)).
Qed.

Lemma consistent_initial : consistent 0 initial.
Proof. repeat split; simpl; auto. Qed.

Lemma consistent_step n st r :
  consistent n st ->
  consistent
    (n + if is_book_cab r && succeeded (fst (handle r st)) then 1 else 0)
    (snd (handle r st)).
Proof.
  intros Hcons. pose proof (handle_step n st r Hcons) as H.
  destruct (is_book_cab r && succeeded (fst (handle r st))).
  - destruct H as (b & Hb & ->). destruct Hcons as (Hc & Hk & Hall).
    repeat split; simpl.
    + lia.
    + unfold dict_keys in *. rewrite map_app, Hk, Nat.add_1_r, ids_from_1000_S.
      simpl. now rewrite Hc.
    + apply Forall_app. split; [done|]. now constructor.
  - now rewrite H, Nat.add_0_r.
Qed.

Lemma run_cons r rest st :
  run (r :: rest) st =
    ((r, fst (handle r st)) :: fst (run rest (snd (handle r st))),
     snd (run rest (snd (handle r st)))).
Proof.
  simpl. destruct (handle r st) as [out st1]. simpl.
  now destruct (run rest st1).
Qed.

Lemma exec_cons r rest st : exec (r :: rest) st = exec rest (snd (handle r st)).
Proof. unfold exec. now rewrite run_cons. Qed.

Lemma issued_ids_cons r rest st :
  issued_ids (r :: rest) st =
    (if is_book_cab r && succeeded (fst (handle r st))
     then [make_id (booking_counter st)] else [])
    ++ issued_ids rest (snd (handle r st)).
Proof. simpl. now destruct (handle r st). Qed.

Lemma creations_cons r rest st :
  length (creations (fst (run (r :: rest) st))) =
    ((if is_book_cab r && succeeded (fst (handle r st)) then 1 else 0)
     + length (creations (fst (run rest (snd (handle r st))))))%nat.
Proof.
  rewrite run_cons. unfold creations. simpl.
  now destruct (is_book_cab r && succeeded (fst (handle r st))).
Qed.

(** The invariant along a run, with the count of the bookings made. *)
Lemma consistent_run reqs n st :
  consistent n st ->
  consistent (n + length (creations (fst (run reqs st)))) (exec reqs st).
Proof.
  revert n st. induction reqs as [|r reqs IH]; intros n st Hcons.
  - unfold exec. simpl. now rewrite Nat.add_0_r.
  - rewrite exec_cons, creations_cons, Nat.add_assoc.
    apply IH, consistent_step, Hcons.
Qed.

Lemma reachable_consistent st :
  reachable st -> exists n, consistent n st.
Proof.
  intros [reqs ->]. eexists. apply (consistent_run reqs 0), consistent_initial.
Qed.

(** The identifiers issued along a run are the keys the run added. *)
Lemma issued_ids_run reqs n st :
  consistent n st ->
  dict_keys (bookings_db (exec reqs st)) =
    dict_keys (bookings_db st) ++ issued_ids reqs st.
Proof.
  revert n st. induction reqs as [|r reqs IH]; intros n st Hcons.
  - unfold exec. simpl. now rewrite app_nil_r.
  - rewrite exec_cons, issued_ids_cons.
    rewrite (IH _ _ (consistent_step _ _ r Hcons)).
    pose proof (handle_step n st r Hcons) as H.
    destruct (is_book_cab r && succeeded (fst (handle r st))).
    + destruct H as (b & _ & ->). simpl. unfold dict_keys.
      now rewrite map_app, <- app_assoc.
    + now rewrite H.
Qed.

(** A run only appends to the store. *)
Lemma run_extends reqs n st :
  consistent n st ->
  exists added, bookings_db (exec reqs st) = bookings_db st ++ added.
Proof.
  revert n st. induction reqs as [|r reqs IH]; intros n st Hcons.
  - exists []. unfold exec. simpl. now rewrite app_nil_r.
  - rewrite exec_cons.
    destruct (IH _ _ (consistent_step _ _ r Hcons)) as [added ->].
    pose proof (handle_step n st r Hcons) as H.
    destruct (is_book_cab r && succeeded (fst (handle r st))).
    + destruct H as (b & _ & ->). simpl. rewrite <- app_assoc. eauto.
    + rewrite H. eauto.
Qed.

Lemma ids_from_1000_NoDup n : NoDup (ids_from_1000 n).
Proof.
  unfold ids_from_1000. apply NoDup_fmap_2_strong; [|apply NoDup_seq].
  intros i j _ _ H. apply make_id_inj in H. lia.
Qed.

Lemma ids_from_1000_lookup n i id :
  ids_from_1000 n !! i = Some id -> id = make_id (1000 + Z.of_nat i).
Proof.
  unfold ids_from_1000. rewrite list_lookup_fmap.
  destruct (seq 0 n !! i) as [j|] eqn:Hj; [|discriminate].
  apply lookup_seq in Hj as [-> _]. now intros [= <-].
Qed.

(** The identifiers of a run from the initial state. *)
Lemma issued_ids_initial reqs :
  issued_ids reqs initial =
    ids_from_1000 (length (creations (fst (run reqs initial)))).
Proof.
  pose proof (issued_ids_run reqs 0 initial consistent_initial) as H.
  destruct (consistent_run reqs 0 initial consistent_initial) as (_ & Hk & _).
  simpl in H. now rewrite <- H, Hk.
Qed.

(** ** The claims *)

(** C1.  In a freshly started server the first successful [book_cab]
    returns the identifier CAB1000 and stores it with fare 50.0 and status
    confirmed, the second returns CAB1001; in general the creation that
    follows [n] successful ones returns ["CAB"] followed by the decimal of
    [1000 + n], and the identifiers issued so far are pairwise distinct and
    carry strictly increasing counters. *)
Theorem booking_ids_count_up_from_1000
    (reqs : list request) (arguments : gmap string string)
    (pickup dropoff datetime cab_type : string) :
  arguments !! "pickup_location" = Some pickup ->
  arguments !! "dropoff_location" = Some dropoff ->
  arguments !! "pickup_datetime" = Some datetime ->
  arguments !! "cab_type" = Some cab_type ->
  let st := exec reqs initial in
  let n := length (creations (fst (run reqs initial))) in
  let id := "CAB" +:+ str_int (1000 + Z.of_nat n) in
  let ids := issued_ids reqs initial ++ [id] in
  call_tool "book_cab" arguments st =
    (Ok [ text_content (confirmation_text id pickup dropoff datetime cab_type) ],
     {| bookings_db :=
          bookings_db st ++
          [(id, {| booking_id := id;
                   pickup_location := pickup;
                   dropoff_location := dropoff;
                   pickup_datetime := datetime;
                   cab_type := cab_type;
                   status := "confirmed";
                   fare := FloatOfInt 50 |})];
        booking_counter := 1001 + Z.of_nat n |}) /\
  (n = 0%nat -> id = "CAB1000") /\
  (n = 1%nat -> id = "CAB1001") /\
  ids = map (fun i => "CAB" +:+ str_int (1000 + Z.of_nat i)) (seq 0 (S n)) /\
  NoDup ids /\
  (forall i j idi idj,
      ids !! i = Some idi -> ids !! j = Some idj -> (i < j)%nat ->
      exists ci cj,
        id_counter idi = Some ci /\ id_counter idj = Some cj /\
        1000 <= ci < cj).
Proof.
  intros Hp Hd Ht Hc st n id ids.
  pose proof (consistent_run reqs 0 initial consistent_initial) as Hcons.
  simpl in Hcons. fold st n in Hcons.
  assert (Hids : ids = ids_from_1000 (S n)).
  { unfold ids. now rewrite issued_ids_initial, ids_from_1000_S. }
  split; [|split; [|split; [|split; [|split]]]].
  - rewrite (book_cab_ok _ _ _ _ _ _ Hp Hd Ht Hc).
    rewrite (dict_set_fresh _ _ _ (fresh_id _ _ Hcons)).
    destruct Hcons as (Hcnt & _ & _). unfold new_booking.
    rewrite Hcnt. unfold id, make_id. do 2 f_equal. lia.
  - intros Hn. unfold id. now rewrite Hn.
  - intros Hn. unfold id. now rewrite Hn.
  - exact Hids.
  - rewrite Hids. apply ids_from_1000_NoDup.
  - rewrite Hids. intros i j idi idj Hi Hj Hlt.
    apply ids_from_1000_lookup in Hi as ->.
    apply ids_from_1000_lookup in Hj as ->.
    exists (1000 + Z.of_nat i), (1000 + Z.of_nat j).
    rewrite !id_counter_make_id. repeat split; lia.
Qed.

Lemma booking_ids_count_up_from_1000_witness :
  fst (call_tool "book_cab" station_ride
         (exec [CallTool "book_cab" airport_ride] initial)) =
    Ok [ text_content
           (confirmation_text "CAB1001" "Station" "Harbour"
              "2024-01-02T08:30:00" "Standard") ].
Proof.
  pose proof (booking_ids_count_up_from_1000
                [CallTool "book_cab" airport_ride] station_ride
                "Station" "Harbour" "2024-01-02T08:30:00" "Standard"
                eq_refl eq_refl eq_refl eq_refl) as H.
  apply proj1 in H. rewrite H. reflexivity.
Defined.

Lemma reachable_initial : reachable initial.
Proof. now exists []. Qed.

(** A [book_cab] call that raises has raised [KeyError] for a key it reads
    and has touched neither global. *)
Lemma book_cab_raise arguments st e :
  fst (call_tool "book_cab" arguments st) = Raise e ->
  snd (call_tool "book_cab" arguments st) = st /\
  exists k, e = KeyError k /\ k ∈ tool_keys "book_cab" /\ arguments !! k = None.
Proof.
  destruct (first_missing (tool_keys "book_cab") arguments) as [k|] eqn:Hm.
  - rewrite (call_tool_missing _ _ _ _ Hm). simpl. intros [= <-].
    apply first_missing_Some in Hm as [Hin Hnone]. eauto.
  - destruct (call_tool_present _ _ st Hm) as (contents & st' & ->).
    discriminate.
Qed.

(** C2, the claim as stated fails: with an empty [pickup_location] the call
    returns the confirmation and the store grows from no booking to one. *)
Lemma blank_pickup_is_booked :
  fst (call_tool "book_cab" blank_pickup_ride initial) =
    Ok [ text_content
           (confirmation_text "CAB1000" "" "Downtown"
              "2024-01-01T10:00:00" "Premium") ] /\
  length (bookings_db initial) = 0%nat /\
  length (bookings_db (snd (call_tool "book_cab" blank_pickup_ride initial)))
    = 1%nat.
Proof. repeat split. Qed.

(** C2, amended.  [book_cab] checks nothing about the values it is given:
    with an empty [pickup_location] and the other three arguments present it
    returns the confirmation and the number of stored bookings grows by
    one.  The call fails only when one of the four arguments is absent, with
    [KeyError], and such a failed call inserts nothing: store and counter
    are unchanged. *)
Theorem blank_pickup_accepted_missing_key_inserts_nothing
    (st : state) (arguments : gmap string string)
    (dropoff datetime cab_type : string)
    (arguments' : gmap string string) (e : exn) :
  reachable st ->
  arguments !! "pickup_location" = Some "" ->
  arguments !! "dropoff_location" = Some dropoff ->
  arguments !! "pickup_datetime" = Some datetime ->
  arguments !! "cab_type" = Some cab_type ->
  fst (call_tool "book_cab" arguments' st) = Raise e ->
  (fst (call_tool "book_cab" arguments st) =
     Ok [ text_content
            (confirmation_text (make_id (booking_counter st))
               "" dropoff datetime cab_type) ] /\
   length (bookings_db (snd (call_tool "book_cab" arguments st))) =
     S (length (bookings_db st))) /\
  (snd (call_tool "book_cab" arguments' st) = st /\
   length (bookings_db (snd (call_tool "book_cab" arguments' st))) =
     length (bookings_db st) /\
   exists k, e = KeyError k /\ k ∈ tool_keys "book_cab" /\
             arguments' !! k = None).
Proof.
  intros Hreach Hp Hd Ht Hc Hraise.
  destruct (reachable_consistent st Hreach) as [n Hcons].
  split.
  - rewrite (book_cab_ok _ _ _ _ _ _ Hp Hd Ht Hc). simpl.
    split; [done|].
    rewrite (dict_set_fresh _ _ _ (fresh_id _ _ Hcons)).
    rewrite length_app. simpl. lia.
  - destruct (book_cab_raise _ _ _ Hraise) as [Hst Hk].
    now rewrite Hst.
Qed.

Lemma blank_pickup_accepted_missing_key_inserts_nothing_witness :
  length (bookings_db (snd (call_tool "book_cab" blank_pickup_ride initial)))
    = S (length (bookings_db initial)) /\
  snd (call_tool "book_cab" ∅ initial) = initial.
Proof.
  pose proof (blank_pickup_accepted_missing_key_inserts_nothing
                initial blank_pickup_ride "Downtown" "2024-01-01T10:00:00"
                "Premium" ∅ (KeyError "pickup_location")
                reachable_initial eq_refl eq_refl eq_refl eq_refl eq_refl)
    as [[_ H1] [H2 _]].
  exact (conj H1 H2).
Defined.

(** C3, the claim as stated fails: a call without the key its branch reads
    raises [KeyError] out of the handler. *)
Lemma missing_argument_raises :
  call_tool "book_cab" ∅ initial = (Raise (KeyError "pickup_location"), initial) /\
  call_tool "check_booking_status" ∅ initial =
    (Raise (KeyError "booking_id"), initial) /\
  call_tool "list_available_cabs" ∅ initial =
    (Raise (KeyError "location"), initial).
Proof. repeat split. Qed.

(** C3, amended.  A tool invocation returns content exactly when the
    argument mapping holds every key the named tool reads (four for
    [book_cab], [booking_id] for [check_booking_status], [location] for
    [list_available_cabs], none for any other name).  When one is absent the
    handler raises [KeyError] for the first absent key and leaves store and
    counter unchanged. *)
Theorem call_tool_raises_exactly_on_missing_key
    (name : string) (arguments : gmap string string) (st : state) :
  match first_missing (tool_keys name) arguments with
  | Some k =>
      call_tool name arguments st = (Raise (KeyError k), st) /\
      k ∈ tool_keys name /\ arguments !! k = None
  | None =>
      (forall k, k ∈ tool_keys name -> is_Some (arguments !! k)) /\
      exists contents st', call_tool name arguments st = (Ok contents, st')
  end.
Proof.
  destruct (first_missing (tool_keys name) arguments) as [k|] eqn:Hm.
  - split; [now apply call_tool_missing | now apply first_missing_Some].
  - split; [now apply first_missing_None | now apply call_tool_present].
Qed.

(** [check_booking_status] on an identifier that is not a key. *)
Lemma check_status_absent arguments st id :
  arguments !! "booking_id" = Some id ->
  id ∉ dict_keys (bookings_db st) ->
  call_tool "check_booking_status" arguments st =
    (Ok [ text_content (not_found_text id) ], st).
Proof.
  intros Hid Hnin. unfold call_tool. simpl. unfold_M. rewrite Hid.
  destruct (dict_contains id (bookings_db st)) eqn:Hin; [|done].
  now apply dict_contains_keys in Hin.
Qed.

(** [check_booking_status] on a stored identifier. *)
Lemma check_status_present arguments st id b :
  arguments !! "booking_id" = Some id ->
  dict_get id (bookings_db st) = Some b ->
  call_tool "check_booking_status" arguments st =
    (Ok [ text_content (status_text b) ], st).
Proof.
  intros Hid Hget. unfold call_tool. simpl. unfold_M. rewrite Hid.
  assert (dict_contains id (bookings_db st) = true) as ->
    by (apply dict_contains_get; eauto).
  now rewrite Hget.
Qed.

(** C4.  For an identifier that no creation of the run has issued,
    [check_booking_status] returns the not-found text as ordinary content
    and leaves the registry as it was, so the number of stored bookings is
    the same before and after. *)
Theorem unissued_id_is_reported_not_found
    (reqs : list request) (arguments : gmap string string) (id : string) :
  arguments !! "booking_id" = Some id ->
  id ∉ issued_ids reqs initial ->
  let st := exec reqs initial in
  call_tool "check_booking_status" arguments st =
    (Ok [ text_content
            ("Booking " +:+ id +:+ " not found. Please check the booking ID.") ],
     st) /\
  length (bookings_db (snd (call_tool "check_booking_status" arguments st))) =
    length (bookings_db st).
Proof.
  intros Hid Hnin st.
  assert (H : call_tool "check_booking_status" arguments st =
              (Ok [ text_content (not_found_text id) ], st)).
  { apply check_status_absent; [done|]. unfold st.
    now rewrite (issued_ids_run reqs 0 initial consistent_initial). }
  now rewrite H.
Qed.

Lemma unissued_id_is_reported_not_found_witness :
  call_tool "check_booking_status" {[ "booking_id" := "CAB9999" ]}
    (exec [CallTool "book_cab" airport_ride] initial) =
    (Ok [ text_content "Booking CAB9999 not found. Please check the booking ID." ],
     exec [CallTool "book_cab" airport_ride] initial).
Proof.
  refine (proj1 (unissued_id_is_reported_not_found
                   [CallTool "book_cab" airport_ride]
                   {[ "booking_id" := "CAB9999" ]} "CAB9999" eq_refl _)).
  change (issued_ids [CallTool "book_cab" airport_ride] initial)
    with ["CAB1000"].
  apply not_elem_of_cons. split; [discriminate | apply not_elem_of_nil].
Defined.

(** C5.  After a successful creation, looking the returned identifier up
    yields the booking with exactly the supplied pickup, drop-off, time and
    cab type and the computed status and fare, both in the store and
    through [check_booking_status]. *)
Theorem lookup_after_create_returns_created
    (st : state) (arguments : gmap string string)
    (pickup dropoff datetime cab_type : string) :
  arguments !! "pickup_location" = Some pickup ->
  arguments !! "dropoff_location" = Some dropoff ->
  arguments !! "pickup_datetime" = Some datetime ->
  arguments !! "cab_type" = Some cab_type ->
  let id := "CAB" +:+ str_int (booking_counter st) in
  let created :=
    {| booking_id := id;
       pickup_location := pickup;
       dropoff_location := dropoff;
       pickup_datetime := datetime;
       cab_type := cab_type;
       status := "confirmed";
       fare := FloatOfInt 50 |} in
  let st' := snd (call_tool "book_cab" arguments st) in
  fst (call_tool "book_cab" arguments st) =
    Ok [ text_content (confirmation_text id pickup dropoff datetime cab_type) ] /\
  dict_get id (bookings_db st') = Some created /\
  call_tool "check_booking_status" {[ "booking_id" := id ]} st' =
    (Ok [ text_content (status_text created) ], st').
Proof.
  intros Hp Hd Ht Hc id created st'. unfold st'.
  rewrite (book_cab_ok _ _ _ _ _ _ Hp Hd Ht Hc). simpl.
  split; [done|].
  assert (Hget : dict_get id
                   (dict_set (make_id (booking_counter st))
                      (new_booking st pickup dropoff datetime cab_type)
                      (bookings_db st)) = Some created)
    by apply dict_get_set_eq.
  split; [exact Hget|].
  apply (check_status_present _ _ id); [|exact Hget].
  apply lookup_singleton_eq.
Qed.

Lemma lookup_after_create_returns_created_witness :
  dict_get "CAB1000"
    (bookings_db (snd (call_tool "book_cab" airport_ride initial))) =
    Some {| booking_id := "CAB1000";
            pickup_location := "Airport";
            dropoff_location := "Downtown";
            pickup_datetime := "2024-01-01T10:00:00";
            cab_type := "Premium";
            status := "confirmed";
            fare := FloatOfInt 50 |}.
Proof.
  exact (proj1 (proj2 (lookup_after_create_returns_created
                         initial airport_ride "Airport" "Downtown"
                         "2024-01-01T10:00:00" "Premium"
                         eq_refl eq_refl eq_refl eq_refl))).
Defined.

Lemma counters_sorted a n :
  StronglySorted Z.lt (map (fun i => 1000 + Z.of_nat i) (seq a n)).
Proof.
  revert a. induction n as [|n IH]; intros a; simpl; constructor.
  - apply IH.
  - apply Forall_forall. intros c (i & -> & Hi)%list_elem_of_fmap.
    apply elem_of_seq in Hi. lia.
Qed.

Lemma StronglySorted_lt_le l : StronglySorted Z.lt l -> StronglySorted Z.le l.
Proof.
  induction 1 as [|c l _ IH Hall]; constructor; [done|].
  eapply Forall_impl; [exact Hall|]. intros; simpl in *; lia.
Qed.

(** C6.  After any sequence of requests the number of stored bookings is
    the number of successful [book_cab] calls made so far, and the keys of
    the store, enumerated in insertion order, carry non-decreasing (in fact
    strictly increasing) counters: they are CAB1000, CAB1001, ... *)
Theorem store_size_counts_creations (reqs : list request) :
  let st := exec reqs initial in
  let n := length (creations (fst (run reqs initial))) in
  length (bookings_db st) = n /\
  dict_keys (bookings_db st) =
    map (fun i => "CAB" +:+ str_int (1000 + Z.of_nat i)) (seq 0 n) /\
  exists counters,
    map id_counter (dict_keys (bookings_db st)) = map Some counters /\
    StronglySorted Z.le counters /\
    StronglySorted Z.lt counters.
Proof.
  intros st n.
  destruct (consistent_run reqs 0 initial consistent_initial) as (_ & Hk & _).
  simpl in Hk. fold st n in Hk.
  split; [|split].
  - unfold dict_keys in Hk. apply (f_equal (@length _)) in Hk.
    unfold ids_from_1000 in Hk. now rewrite !length_map, length_seq in Hk.
  - exact Hk.
  - exists (map (fun i => 1000 + Z.of_nat i) (seq 0 n)). split; [|split].
    + rewrite Hk. unfold ids_from_1000. rewrite !map_map.
      apply map_ext. intros i. apply id_counter_make_id.
    + apply StronglySorted_lt_le, counters_sorted.
    + apply counters_sorted.
Qed.

(** C8.  An unrecognized tool name is answered with ordinary text naming
    the unknown tool and nothing is raised, whereas an unrecognized
    resource URI and an unrecognized prompt name raise [ValueError]. *)
Theorem unknown_names_two_channels
    (name : string) (arguments : gmap string string)
    (uri prompt : string) (st : state) :
  name <> "book_cab" ->
  name <> "check_booking_status" ->
  name <> "list_available_cabs" ->
  uri <> "booking://all" ->
  prompt <> "booking_assistant" ->
  call_tool name arguments st =
    (Ok [ text_content ("Unknown tool: " +:+ name) ], st) /\
  read_resource uri st = (Raise (ValueError ("Unknown resource: " +:+ uri)), st) /\
  get_prompt prompt st = (Raise (ValueError ("Unknown prompt: " +:+ prompt)), st).
Proof.
  intros H1 H2 H3 H4 H5. unfold call_tool, read_resource, get_prompt.
  cbn [uri_eq uri_text]. apply String.eqb_neq in H1, H2, H3, H4, H5.
  now rewrite H1, H2, H3, H4, H5.
Qed.

Lemma unknown_names_two_channels_witness :
  call_tool "cancel_cab" ∅ initial =
    (Ok [ text_content "Unknown tool: cancel_cab" ], initial) /\
  read_resource "booking://CAB1000" initial =
    (Raise (ValueError "Unknown resource: booking://CAB1000"), initial) /\
  get_prompt "driver_assistant" initial =
    (Raise (ValueError "Unknown prompt: driver_assistant"), initial).
Proof.
  apply (unknown_names_two_channels
           "cancel_cab" ∅ "booking://CAB1000" "driver_assistant" initial);
    discriminate.
Defined.

(** C9.  [check_booking_status] and [list_available_cabs] are read-only:
    whatever the arguments and the state, the store and the counter are the
    same after the call as before.  No tool other than [book_cab] changes
    them. *)
Theorem only_book_cab_mutates
    (name : string) (arguments : gmap string string) (st : state) :
  (bookings_db (snd (call_tool "check_booking_status" arguments st)) =
     bookings_db st /\
   booking_counter (snd (call_tool "check_booking_status" arguments st)) =
     booking_counter st) /\
  (bookings_db (snd (call_tool "list_available_cabs" arguments st)) =
     bookings_db st /\
   booking_counter (snd (call_tool "list_available_cabs" arguments st)) =
     booking_counter st) /\
  (snd (call_tool name arguments st) = st \/ name = "book_cab").
Proof.
  rewrite !call_tool_frame by discriminate.
  repeat split.
  destruct (String.eqb_spec name "book_cab") as [->|Hne]; [now right|].
  left. now apply call_tool_frame.
Qed.

Lemma dict_get_stored n st k b :
  consistent n st -> dict_get k (bookings_db st) = Some b -> stored_as k b.
Proof.
  intros (_ & _ & Hall) Hget. apply dict_get_elem in Hget.
  rewrite Forall_forall in Hall. exact (Hall (k, b) Hget).
Qed.

Lemma dict_get_exec n st reqs k b :
  consistent n st ->
  dict_get k (bookings_db st) = Some b ->
  dict_get k (bookings_db (exec reqs st)) = Some b.
Proof.
  intros Hcons Hget. destruct (run_extends reqs n st Hcons) as [added ->].
  clear Hcons. revert Hget.
  induction (bookings_db st) as [|[k0 v0] d IH]; simpl; [discriminate|].
  destruct (String.eqb k k0); auto.
Qed.

(** C10.  In every state the server can reach, the booking stored under a
    key carries that key as its [booking_id], has status ["confirmed"] and
    fare 50.0, the keys are pairwise distinct, and whatever requests follow,
    the booking stays stored under its key unchanged. *)
Theorem stored_bookings_are_well_formed_and_permanent
    (reqs more : list request) (r : request) (k : string) (b : booking) :
  dict_get k (bookings_db (exec reqs initial)) = Some b ->
  (booking_id b = k /\ status b = "confirmed" /\ fare b = FloatOfInt 50) /\
  Forall (fun kv => booking_id (snd kv) = fst kv /\
                    status (snd kv) = "confirmed" /\
                    fare (snd kv) = FloatOfInt 50)
    (bookings_db (exec reqs initial)) /\
  NoDup (dict_keys (bookings_db (exec reqs initial))) /\
  dict_get k (bookings_db (snd (handle r (exec reqs initial)))) = Some b /\
  dict_get k (bookings_db (exec more (exec reqs initial))) = Some b.
Proof.
  intros Hget.
  pose proof (consistent_run reqs 0 initial consistent_initial) as Hcons.
  split; [exact (dict_get_stored _ _ _ _ Hcons Hget)|].
  split; [exact (proj2 (proj2 Hcons))|].
  split.
  { destruct Hcons as (_ & -> & _). apply ids_from_1000_NoDup. }
  split.
  - pose proof (dict_get_exec _ _ [r] _ _ Hcons Hget) as H.
    now rewrite exec_cons in H.
  - exact (dict_get_exec _ _ more _ _ Hcons Hget).
Qed.

Lemma stored_bookings_are_well_formed_and_permanent_witness :
  dict_get "CAB1000"
    (bookings_db
       (exec [CallTool "book_cab" station_ride; ReadResource "booking://all"]
          (exec [CallTool "book_cab" airport_ride] initial))) =
    Some {| booking_id := "CAB1000";
            pickup_location := "Airport";
            dropoff_location := "Downtown";
            pickup_datetime := "2024-01-01T10:00:00";
            cab_type := "Premium";
            status := "confirmed";
            fare := FloatOfInt 50 |}.
Proof.
  exact (proj2 (proj2 (proj2 (proj2
    (stored_bookings_are_well_formed_and_permanent
       [CallTool "book_cab" airport_ride]
       [CallTool "book_cab" station_ride; ReadResource "booking://all"]
       (CallTool "book_cab" station_ride) "CAB1000" _ eq_refl))))).
Defined.

(** ** The serialized store read back *)

#[local] Arguments String.append !_ _ / : simpl nomatch.

Lemma append_assoc (a b c : string) : (a +:+ b) +:+ c = a +:+ (b +:+ c).
Proof. induction a as [|x a IH]; simpl; [done|]. now rewrite IH. Qed.

Lemma length_append (a b : string) :
  String.length (a +:+ b) = (String.length a + String.length b)%nat.
Proof. induction a as [|x a IH]; simpl; [done|]. now rewrite IH. Qed.

Lemma small_cases (P : N -> Prop) (bound : nat) (d : N) :
  (d < N.of_nat bound)%N ->
  Forall P (map N.of_nat (seq 0 bound)) -> P d.
Proof.
  intros Hd Hall. rewrite Forall_forall in Hall. apply Hall.
  apply list_elem_of_fmap. exists (N.to_nat d). split; [lia|].
  apply elem_of_seq. lia.
Qed.

Lemma hex_value_hex_digit (d : N) :
  (d < 16)%N -> hex_value (hex_digit d) = Some d.
Proof.
  intros Hd.
  apply (small_cases (fun d => hex_value (hex_digit d) = Some d) 16 d Hd).
  simpl. repeat constructor.
Qed.

Lemma N_of_ascii_of_N (n : N) : (n < 256)%N -> N_of_ascii (ascii_of_N n) = n.
Proof. apply N_ascii_embedding. Qed.

Lemma eqb_ascii_of_N (a b : N) :
  (a < 256)%N -> (b < 256)%N ->
  Ascii.eqb (ascii_of_N a) (ascii_of_N b) = (a =? b)%N.
Proof.
  intros Ha Hb. destruct (Ascii.eqb_spec (ascii_of_N a) (ascii_of_N b)) as [H|H].
  - apply (f_equal N_of_ascii) in H. rewrite !N_of_ascii_of_N in H by done.
    subst. now rewrite N.eqb_refl.
  - destruct (N.eqb_spec a b); [congruence|done].
Qed.

Lemma hex4_value (v : N) :
  (v < 65536)%N ->
  ((((v / 4096) mod 16 * 16 + (v / 256) mod 16) * 16 + (v / 16) mod 16) * 16
   + v mod 16)%N = v.
Proof. intros Hv. divmod. Qed.

Lemma scan_units_u_escape (v : N) (tail : string) :
  (v < 65536)%N ->
  scan_units (u_escape v +:+ tail) =
    '(units, rest) ← scan_units tail; Some (Escaped v :: units, rest).
Proof.
  intros Hv. unfold u_escape, hex4. simpl String.append. cbn [scan_units].
  change (Ascii.eqb backslash dquote) with false.
  change (Ascii.eqb backslash backslash) with true.
  change (Ascii.eqb "u" "u") with true. cbv iota.
  rewrite !hex_value_hex_digit by (apply N.mod_lt; discriminate).
  cbn [mbind option_bind]. now rewrite hex4_value.
Qed.

(** [a * 2^k | b] is [a * 2^k + b] when [b] fits in [k] bits. *)
Lemma lor_shifted (a b k : N) :
  (b < 2 ^ k)%N -> N.lor (a * 2 ^ k) b = (a * 2 ^ k + b)%N.
Proof.
  intros Hb.
  assert (Hland : N.land (a * 2 ^ k) b = 0%N).
  { apply N.bits_inj. intros i. rewrite N.land_spec, N.bits_0.
    destruct (N.lt_ge_cases i k) as [Hlt|Hge].
    - now rewrite N.mul_pow2_bits_low.
    - rewrite <- (N.mod_small b (2 ^ k)) by done.
      rewrite N.mod_pow2_bits_high by done. apply andb_false_r. }
  now rewrite N.add_nocarry_lxor, N.lxor_lor.
Qed.

Lemma high_surrogate_value (cp : N) :
  (65536 <= cp < 1114112)%N ->
  high_surrogate cp = (55296 + (cp - 65536) / 1024)%N.
Proof.
  intros Hcp. unfold high_surrogate.
  change 1023%N with (N.ones 10). rewrite N.land_ones, N.shiftr_div_pow2.
  change (2 ^ 10)%N with 1024%N.
  rewrite N.mod_small by divmod.
  change 55296%N with (54 * 2 ^ 10)%N at 1.
  rewrite lor_shifted; [reflexivity|]. change (2 ^ 10)%N with 1024%N. divmod.
Qed.

Lemma low_surrogate_value (cp : N) :
  low_surrogate cp = (56320 + (cp - 65536) mod 1024)%N.
Proof.
  unfold low_surrogate.
  change 1023%N with (N.ones 10). rewrite N.land_ones.
  change (2 ^ 10)%N with 1024%N.
  change 56320%N with (55 * 2 ^ 10)%N at 1.
  rewrite lor_shifted; [reflexivity|]. change (2 ^ 10)%N with 1024%N. divmod.
Qed.

Lemma merge_surrogates (cp : N) :
  (65536 <= cp < 1114112)%N ->
  (65536 + N.lor (N.shiftl (high_surrogate cp - 55296) 10)
             (low_surrogate cp - 56320))%N = cp.
Proof.
  intros Hcp. rewrite high_surrogate_value, low_surrogate_value by done.
  rewrite N.shiftl_mul_pow2, lor_shifted;
    change (2 ^ 10)%N with 1024%N; divmod.
Qed.

Lemma surrogates_of_astral (cp : N) :
  (65536 <= cp < 1114112)%N ->
  is_high_surrogate (high_surrogate cp) = true /\
  is_low_surrogate (low_surrogate cp) = true /\
  (high_surrogate cp < 65536)%N /\ (low_surrogate cp < 65536)%N.
Proof.
  intros Hcp. rewrite high_surrogate_value, low_surrogate_value by done.
  unfold is_high_surrogate, is_low_surrogate.
  rewrite !andb_true_iff, !N.leb_le. divmod.
Qed.

Lemma escape_code_point_other (cp : N) :
  cp <> 34%N -> cp <> 92%N -> cp <> 10%N -> cp <> 13%N -> cp <> 9%N ->
  cp <> 8%N -> cp <> 12%N ->
  escape_code_point cp =
    if ((32 <=? cp) && (cp <=? 126))%N then String (ascii_of_N cp) EmptyString
    else if (cp <? 65536)%N then u_escape cp
    else u_escape (high_surrogate cp) +:+ u_escape (low_surrogate cp).
Proof.
  intros. unfold escape_code_point.
  destruct cp as [|p]; [reflexivity|].
  do 7 (try destruct p as [p|p|]); try reflexivity; congruence.
Qed.

Lemma scan_units_escape_code_point (cp : N) (tail : string) :
  (cp < 1114112)%N ->
  scan_units (escape_code_point cp +:+ tail) =
    '(units, rest) ← scan_units tail; Some (units_of cp ++ units, rest).
Proof.
  intros Hcp.
  destruct (decide (cp = 34%N)) as [->|?]; [reflexivity|].
  destruct (decide (cp = 92%N)) as [->|?]; [reflexivity|].
  destruct (decide (cp = 10%N)) as [->|?]; [reflexivity|].
  destruct (decide (cp = 13%N)) as [->|?]; [reflexivity|].
  destruct (decide (cp = 9%N)) as [->|?]; [reflexivity|].
  destruct (decide (cp = 8%N)) as [->|?]; [reflexivity|].
  destruct (decide (cp = 12%N)) as [->|?]; [reflexivity|].
  rewrite escape_code_point_other by done. unfold units_of, is_literal.
  replace (cp =? 8)%N with false by (symmetry; now apply N.eqb_neq).
  replace (cp =? 9)%N with false by (symmetry; now apply N.eqb_neq).
  replace (cp =? 10)%N with false by (symmetry; now apply N.eqb_neq).
  replace (cp =? 12)%N with false by (symmetry; now apply N.eqb_neq).
  replace (cp =? 13)%N with false by (symmetry; now apply N.eqb_neq).
  rewrite !orb_false_r.
  destruct ((32 <=? cp) && (cp <=? 126))%N eqn:Hprint.
  - apply andb_true_iff in Hprint as [H1%N.leb_le H2%N.leb_le].
    simpl String.append. cbn [scan_units].
    change dquote with (ascii_of_N 34). change backslash with (ascii_of_N 92).
    rewrite !eqb_ascii_of_N by lia.
    replace (cp =? 34)%N with false by (symmetry; now apply N.eqb_neq).
    replace (cp =? 92)%N with false by (symmetry; now apply N.eqb_neq).
    rewrite N_of_ascii_of_N by lia.
    replace (cp <? 32)%N with false by (symmetry; apply N.ltb_ge; lia).
    reflexivity.
  - destruct (N.ltb_spec cp 65536) as [Hlt|Hge].
    + now rewrite scan_units_u_escape.
    + destruct (surrogates_of_astral cp) as (_ & _ & Hh & Hl); [lia|].
      rewrite append_assoc, scan_units_u_escape by done.
      rewrite scan_units_u_escape by done.
      now destruct (scan_units tail) as [[units rest]|].
Qed.

Lemma assemble_lone (v : N) (units : list scanned) :
  is_high_surrogate v && starts_low units = false ->
  assemble (Escaped v :: units) = utf8 v +:+ assemble units.
Proof.
  destruct units as [|[c|v2] units]; try reflexivity.
  simpl starts_low. intros H. cbn [assemble]. now rewrite H.
Qed.

Lemma units_of_literal (cp : N) :
  is_literal cp = true -> (cp < 128)%N /\ is_low_surrogate cp = false.
Proof.
  unfold is_literal, is_low_surrogate.
  rewrite !orb_true_iff, andb_true_iff, !N.leb_le, !N.eqb_eq.
  intros H. split; [lia|]. apply andb_false_iff. left. apply N.leb_gt. lia.
Qed.

Lemma starts_low_units (cp : N) (units : list scanned) :
  valid_code_point cp = true ->
  starts_low (units_of cp ++ units) = is_low_surrogate cp.
Proof.
  intros Hcp%N.ltb_lt. unfold units_of.
  destruct (is_literal cp) eqn:Hlit.
  - symmetry. now apply units_of_literal.
  - destruct (N.ltb_spec cp 65536) as [Hlt|Hge]; [reflexivity|].
    simpl. destruct (surrogates_of_astral cp) as (Hh & _); [lia|].
    unfold is_high_surrogate, is_low_surrogate in *.
    apply andb_true_iff in Hh as [H1%N.leb_le H2%N.leb_le].
    transitivity false.
    + apply andb_false_iff. left. apply N.leb_gt. lia.
    + symmetry. apply andb_false_iff. right. apply N.leb_gt. lia.
Qed.

Lemma assemble_units (cps : list N) :
  forallb valid_code_point cps = true ->
  no_surrogate_pair cps = true ->
  assemble (flat_map units_of cps) = str_of_code_points cps.
Proof.
  induction cps as [|cp cps IH]; [reflexivity|].
  cbn [forallb no_surrogate_pair flat_map str_of_code_points].
  intros [Hcp Hall]%andb_true_iff [Hpair Hrest]%andb_true_iff.
  specialize (IH Hall Hrest).
  assert (Hnext : is_high_surrogate cp && starts_low (flat_map units_of cps)
                  = false).
  { destruct cps as [|cp' cps']; [apply andb_false_r|].
    cbn [flat_map]. cbn [forallb] in Hall.
    apply andb_true_iff in Hall as [Hcp' _].
    rewrite (starts_low_units cp' _ Hcp'). now apply negb_true_iff. }
  pose proof Hcp as Hlt%N.ltb_lt.
  unfold units_of at 1. destruct (is_literal cp) eqn:Hlit.
  - destruct (units_of_literal cp Hlit) as [H128 _].
    cbn [app assemble]. rewrite IH. unfold utf8.
    now replace (cp <? 128)%N with true by (symmetry; now apply N.ltb_lt).
  - destruct (N.ltb_spec cp 65536) as [H16|Hge].
    + cbn [app]. now rewrite assemble_lone, IH.
    + destruct (surrogates_of_astral cp) as (Hh & Hl & _); [lia|].
      cbn [app assemble]. rewrite Hh, Hl. cbn [andb].
      rewrite merge_surrogates by lia. now rewrite IH.
Qed.

Lemma scan_units_escape (cps : list N) (rest : string) :
  forallb valid_code_point cps = true ->
  scan_units (escape_code_points cps +:+ String dquote rest) =
    Some (flat_map units_of cps, rest).
Proof.
  induction cps as [|cp cps IH]; [reflexivity|].
  cbn [forallb escape_code_points flat_map].
  intros [Hcp%N.ltb_lt Hall]%andb_true_iff.
  rewrite append_assoc, scan_units_escape_code_point by done.
  now rewrite (IH Hall).
Qed.

(** A string literal is read back as the [str] it encodes, whatever
    follows its closing quote. *)
Lemma scanstring_escape (s rest : string) :
  clean_str s = true ->
  scanstring (escape s +:+ String dquote rest) = Some (s, rest).
Proof.
  unfold clean_str, is_str.
  intros [[Henc%String.eqb_eq Hvalid]%andb_true_iff Hpair]%andb_true_iff.
  unfold scanstring, escape. rewrite scan_units_escape by exact Hvalid.
  cbn [mbind option_bind].
  now rewrite (assemble_units _ Hvalid Hpair), Henc.
Qed.

(** The bytes of a code point are read back as that code point. *)
Lemma code_points_utf8 (cp : N) (tail : string) :
  (cp < 1114112)%N ->
  code_points (utf8 cp +:+ tail) = cp :: code_points tail.
Proof.
  intros Hcp. unfold utf8.
  destruct (N.ltb_spec cp 128) as [H1|H1];
    [|destruct (N.ltb_spec cp 2048) as [H2|H2];
      [|destruct (N.ltb_spec cp 65536) as [H3|H3]]];
    simpl String.append; cbn [code_points]; unfold is_continuation;
    rewrite !N_of_ascii_of_N by divmod; decide_ltb; cbn [andb negb];
    cbv iota; f_equal; divmod.
Qed.

Lemma code_points_str_of_code_points (cps : list N) :
  forallb valid_code_point cps = true ->
  code_points (str_of_code_points cps) = cps.
Proof.
  induction cps as [|cp cps IH]; [reflexivity|].
  cbn [forallb str_of_code_points].
  intros [Hcp%N.ltb_lt Hall]%andb_true_iff.
  now rewrite code_points_utf8, IH.
Qed.

(** Every sequence of code points below 0x110000 is a [str] of the
    model. *)
Lemma is_str_str_of_code_points (cps : list N) :
  forallb valid_code_point cps = true -> is_str (str_of_code_points cps) = true.
Proof.
  intros Hall. unfold is_str.
  rewrite code_points_str_of_code_points by done.
  now rewrite String.eqb_refl.
Qed.

Lemma skip_ws_no_ws (s : string) : no_ws_ahead s = true -> skip_ws s = s.
Proof. destruct s as [|c s]; simpl; [done|]. now destruct (is_ws c). Qed.

Lemma skip_ws_indentation (level : nat) (s : string) :
  skip_ws (indentation level +:+ s) = skip_ws s.
Proof. induction level as [|level IH]; simpl; [done|]. exact IH. Qed.

Lemma skip_ws_newline_indent (level : nat) (s : string) :
  skip_ws (nl +:+ indentation level +:+ s) = skip_ws s.
Proof. simpl. apply skip_ws_indentation. Qed.

Lemma span_digits_all (ds rest : string) :
  all_digits ds = true -> no_digit_ahead rest = true ->
  span_digits (ds +:+ rest) = (ds, rest).
Proof.
  intros Hds Hrest. induction ds as [|c ds IH]; simpl.
  - destruct rest as [|c rest]; simpl in *; [done|].
    now destruct (is_digit c).
  - simpl in Hds. apply andb_true_iff in Hds as [-> Hds]. now rewrite IH.
Qed.

Lemma string_of_uint_digits (d : Decimal.uint) :
  all_digits (NilEmpty.string_of_uint d) = true.
Proof. induction d; simpl; auto. Qed.

(** [str(n)] is an optional minus sign and then one digit or more. *)
Lemma str_int_shape (n : Z) :
  exists c ds,
    is_digit c = true /\ all_digits ds = true /\
    (str_int n = String c ds \/ str_int n = String "-" (String c ds)).
Proof.
  assert (Hu : forall d, exists c ds,
             is_digit c = true /\ all_digits ds = true /\
             NilZero.string_of_uint d = String c ds).
  { intros d. pose proof (string_of_uint_digits d) as Hd.
    destruct d; simpl in *;
      (eexists _, _; (split; [|split; [|reflexivity]]);
       [reflexivity | exact Hd]). }
  unfold str_int. destruct (Z.to_int n) as [d|d]; simpl;
    destruct (Hu d) as (c & ds & Hc & Hds & ->); eauto 10.
Qed.

(** A float is read back, provided no digit follows its text. *)
Lemma scan_number_str_float (x : pyfloat) (rest : string) :
  no_digit_ahead rest = true ->
  scan_number (str_float x +:+ rest) = Some (x, rest).
Proof.
  intros Hrest. destruct x as [n]. unfold str_float.
  pose proof (int_of_str_str_int n) as Hint.
  pose proof (span_digits_all EmptyString rest eq_refl Hrest) as Hfrac.
  simpl in Hfrac.
  destruct (str_int_shape n) as (c & ds & Hc & Hds & [Hs|Hs]);
    rewrite Hs in Hint |- *; unfold scan_number.
  - assert (Hnot : match String c ((ds +:+ ".0") +:+ rest) with
                   | String "-" s' => ("-", s')
                   | _ => (EmptyString, String c ((ds +:+ ".0") +:+ rest))
                   end = (EmptyString, String c ((ds +:+ ".0") +:+ rest))).
    { destruct c as [[] [] [] [] [] [] [] []]; try discriminate; reflexivity. }
    simpl. simpl in Hnot. rewrite Hnot. clear Hnot.
    rewrite append_assoc.
    change (String c (ds +:+ ".0" +:+ rest))
      with (String c ds +:+ (".0" +:+ rest)).
    rewrite span_digits_all; [|simpl; now rewrite Hc|reflexivity].
    simpl. rewrite Hfrac.
    simpl. rewrite Hint. simpl. now rewrite Hs, String.eqb_refl.
  - simpl. rewrite append_assoc, Hc.
    rewrite (span_digits_all ds (".0" +:+ rest) Hds eq_refl).
    simpl. rewrite Hfrac.
    simpl. rewrite Hint. simpl. now rewrite Hs, String.eqb_refl.
Qed.

Lemma iterencode_obj (kv : string * json) (items : list (string * json))
    (level : nat) :
  iterencode (JObj (kv :: items)) level =
    "{" +:+ (nl +:+ indentation (S level)) +:+
    join (item_separator (S level)) (map (member_text (S level)) (kv :: items))
    +:+ nl +:+ indentation level +:+ "}".
Proof. reflexivity. Qed.

Lemma distinct_keys_obj (items : list (string * json)) :
  distinct_keys (JObj items) <->
  NoDup (map fst items) /\ Forall (fun kv => distinct_keys (snd kv)) items.
Proof.
  simpl. apply and_iff_compat_l.
  induction items as [|kv items IH].
  - split; [constructor | done].
  - rewrite Forall_cons, <- IH. reflexivity.
Qed.

Lemma clean_strings_obj (items : list (string * json)) :
  clean_strings (JObj items) <->
  Forall (fun kv => clean_str (fst kv) = true /\ clean_strings (snd kv)) items.
Proof.
  simpl. induction items as [|kv items IH].
  - split; [constructor | done].
  - rewrite Forall_cons, <- IH. reflexivity.
Qed.

(** The text of a value starts with a quote, a brace, a digit or a minus
    sign: with nothing [skip_ws] would drop. *)
Lemma iterencode_no_ws (v : json) (level : nat) (rest : string) :
  no_ws_ahead (iterencode v level +:+ rest) = true.
Proof.
  destruct v as [s|[n]|[|kv items]]; try reflexivity.
  unfold iterencode, str_float.
  destruct (str_int_shape n) as (c & ds & Hc & _ & [->| ->]); [|reflexivity].
  simpl. destruct c as [[] [] [] [] [] [] [] []]; try discriminate; reflexivity.
Qed.

Lemma iterencode_nonempty (v : json) (level : nat) :
  (1 <= String.length (iterencode v level))%nat.
Proof.
  destruct v as [s|[n]|[|kv items]]; simpl; try lia.
  unfold str_float. rewrite length_append. simpl. lia.
Qed.

Lemma member_text_length (level : nat) (kv : string * json) :
  (String.length (iterencode (snd kv) level) + 4
   <= String.length (member_text level kv))%nat.
Proof.
  unfold member_text, encode_basestring_ascii.
  rewrite !length_append. simpl. rewrite !length_append. simpl. lia.
Qed.

Lemma join_cons_cons (sep a b : string) (l : list string) :
  join sep (a :: b :: l) = a +:+ sep +:+ join sep (b :: l).
Proof. reflexivity. Qed.

Lemma parse_value_string (fuel : nat) (s : string) :
  parse_value (S fuel) (String dquote s) =
    '(str, rest) ← scanstring s; Some (JStr str, rest).
Proof. reflexivity. Qed.

Lemma parse_value_number (fuel : nat) (x : pyfloat) (rest : string) :
  parse_value (S fuel) (str_float x +:+ rest) =
    '(y, rest') ← scan_number (str_float x +:+ rest); Some (JFloat y, rest').
Proof.
  destruct x as [n]. unfold str_float.
  destruct (str_int_shape n) as (c & ds & Hc & _ & [->| ->]); [|reflexivity].
  simpl String.append.
  destruct c as [[] [] [] [] [] [] [] []]; try discriminate; reflexivity.
Qed.

Lemma parse_members_key (fuel : nat) (s : string) :
  parse_members (S fuel) (String dquote s) =
    '(key, s2) ← scanstring s;
    match skip_ws s2 with
    | String ":" s3 =>
        '(v, s4) ← parse_value fuel (skip_ws s3);
        match skip_ws s4 with
        | String "," s5 =>
            '(pairs, rest) ← parse_members fuel (skip_ws s5);
            Some ((key, v) :: pairs, rest)
        | String "}" rest => Some ([(key, v)], rest)
        | _ => None
        end
    | _ => None
    end.
Proof. reflexivity. Qed.

Lemma member_text_shape (level : nat) (key : string) (v : json) (tail : string) :
  member_text level (key, v) +:+ tail =
    String dquote
      (escape key +:+ String dquote (": " +:+ iterencode v level +:+ tail)).
Proof.
  unfold member_text, encode_basestring_ascii. simpl fst. simpl snd.
  rewrite !append_assoc. simpl. now rewrite !append_assoc.
Qed.

Lemma join_members_split (level : nat) (kv : string * json)
    (items : list (string * json)) (tail : string) :
  join (item_separator level) (map (member_text level) (kv :: items)) +:+ tail =
    member_text level kv +:+
    match items with
    | [] => tail
    | _ => item_separator level +:+
           join (item_separator level) (map (member_text level) items) +:+ tail
    end.
Proof.
  destruct items as [|kv' items]; [reflexivity|].
  simpl map. rewrite join_cons_cons. now rewrite !append_assoc.
Qed.

Lemma join_members_length (level : nat) (kv : string * json)
    (items : list (string * json)) :
  (String.length (member_text level kv) +
   String.length (join (item_separator level) (map (member_text level) items))
   <= String.length
        (join (item_separator level) (map (member_text level) (kv :: items))))%nat.
Proof.
  destruct items as [|kv' items]; [simpl; lia|].
  simpl map. rewrite join_cons_cons, !length_append. lia.
Qed.

Lemma iterencode_obj_rest (kv : string * json) (items : list (string * json))
    (level : nat) (rest : string) :
  iterencode (JObj (kv :: items)) level +:+ rest =
    "{" +:+ (nl +:+ indentation (S level)) +:+
    (join (item_separator (S level)) (map (member_text (S level)) (kv :: items))
     +:+ nl +:+ indentation level +:+ String "}" rest).
Proof. rewrite iterencode_obj, !append_assoc. reflexivity. Qed.

Lemma iterencode_obj_length (kv : string * json) (items : list (string * json))
    (level : nat) :
  (S (String.length
        (join (item_separator (S level))
           (map (member_text (S level)) (kv :: items))))
   <= String.length (iterencode (JObj (kv :: items)) level))%nat.
Proof.
  rewrite iterencode_obj, !length_append.
  change (String.length "{") with 1%nat. lia.
Qed.

Lemma parse_value_open (fuel level : nat) (s : string) :
  parse_value (S fuel) ("{" +:+ (nl +:+ indentation level) +:+ String dquote s) =
    '(pairs, rest) ← parse_members fuel (String dquote s);
    Some (JObj (dict_of_pairs pairs), rest).
Proof.
  rewrite append_assoc. simpl String.append. cbn [parse_value].
  change (Ascii.eqb "{" dquote) with false.
  change (Ascii.eqb "{" "{") with true. cbv iota.
  change (skip_ws (String "010" ?t)) with (skip_ws t).
  rewrite skip_ws_indentation. reflexivity.
Qed.

Lemma parse_members_member (fuel level : nat) (key : string) (v : json)
    (tail : string) :
  clean_str key = true ->
  parse_value fuel (iterencode v level +:+ tail) = Some (v, tail) ->
  parse_members (S fuel) (member_text level (key, v) +:+ tail) =
    match skip_ws tail with
    | String "," s5 =>
        '(pairs, rest) ← parse_members fuel (skip_ws s5);
        Some ((key, v) :: pairs, rest)
    | String "}" rest => Some ([(key, v)], rest)
    | _ => None
    end.
Proof.
  intros Hkey Hv.
  rewrite member_text_shape, parse_members_key, scanstring_escape by done.
  cbn [mbind option_bind].
  change (skip_ws (": " +:+ iterencode v level +:+ tail))
    with (String ":" (" " +:+ iterencode v level +:+ tail)).
  cbv iota.
  change (skip_ws (" " +:+ iterencode v level +:+ tail))
    with (skip_ws (iterencode v level +:+ tail)).
  rewrite (skip_ws_no_ws _ (iterencode_no_ws v level tail)), Hv.
  reflexivity.
Qed.

(** The reader inverts the encoder: a value, and the members of an object
    up to its closing brace. *)
Lemma parse_iterencode (fuel : nat) :
  (forall v level rest,
      distinct_keys v -> clean_strings v -> no_digit_ahead rest = true ->
      (String.length (iterencode v level) <= fuel)%nat ->
      parse_value fuel (iterencode v level +:+ rest) = Some (v, rest)) /\
  (forall items level closing rest,
      items <> [] ->
      Forall (fun kv => distinct_keys (snd kv)) items ->
      Forall (fun kv => clean_str (fst kv) = true /\ clean_strings (snd kv))
        items ->
      (String.length
         (join (item_separator level) (map (member_text level) items))
       <= fuel)%nat ->
      parse_members fuel
        (join (item_separator level) (map (member_text level) items) +:+
         nl +:+ indentation closing +:+ String "}" rest)
      = Some (items, rest)).
Proof.
  induction fuel as [|fuel [IHv IHm]].
  { split.
    - intros v level rest _ _ _ Hlen.
      pose proof (iterencode_nonempty v level). lia.
    - intros [|kv items] level closing rest Hne _ _ Hlen; [done|].
      pose proof (join_members_length level kv items).
      pose proof (member_text_length level kv). lia. }
  split.
  - intros v level rest Hdk Hcs Hrest Hlen.
    destruct v as [s|x|[|kv items]].
    + unfold iterencode, encode_basestring_ascii. simpl String.append.
      rewrite parse_value_string, append_assoc. simpl String.append.
      now rewrite scanstring_escape.
    + unfold iterencode. rewrite parse_value_number.
      now rewrite scan_number_str_float.
    + reflexivity.
    + apply distinct_keys_obj in Hdk as [Hnd Hall].
      apply clean_strings_obj in Hcs.
      pose proof (iterencode_obj_length kv items level) as Hlen'.
      rewrite iterencode_obj_rest.
      pose proof (IHm (kv :: items) (S level) level rest
                    ltac:(done) Hall Hcs ltac:(lia)) as Hm.
      revert Hm. destruct kv as [key v].
      rewrite join_members_split, member_text_shape. intros Hm.
      rewrite parse_value_open, Hm. cbn [mbind option_bind].
      now rewrite (dict_of_pairs_distinct _ Hnd).
  - intros [|[key v] items] level closing rest Hne Hall Hcs Hlen; [done|].
    apply Forall_cons in Hall as [Hv Hall]. simpl in Hv.
    apply Forall_cons in Hcs as [[Hkey Hcv] Hcs]. simpl in Hkey, Hcv.
    pose proof (join_members_length level (key, v) items) as Hj.
    pose proof (member_text_length level (key, v)) as Hmt. simpl snd in Hmt.
    rewrite join_members_split, parse_members_member.
    + destruct items as [|kv' items].
      * rewrite skip_ws_newline_indent. reflexivity.
      * unfold item_separator at 1. rewrite !append_assoc.
        change (skip_ws ("," +:+ ?t)) with (String ","%char t).
        cbv iota. rewrite skip_ws_newline_indent.
        rewrite skip_ws_no_ws.
        -- rewrite IHm; [reflexivity|done|done|done|lia].
        -- destruct kv' as [key' v'].
           now rewrite join_members_split, member_text_shape.
    + exact Hkey.
    + apply IHv; [done|done| |lia].
      now destruct items.
Qed.

(** [json.loads(json.dumps(v, indent=2)) == v] for dictionaries all the
    way down whose strings hold no surrogate pair. *)
Lemma json_loads_dumps (v : json) :
  distinct_keys v -> clean_strings v -> json_loads (json_dumps v) = Some v.
Proof.
  intros Hdk Hcs. unfold json_loads, json_dumps.
  rewrite (skip_ws_no_ws (iterencode v 0)).
  - pose proof (proj1 (parse_iterencode (S (String.length (iterencode v 0))))
                  v 0%nat EmptyString Hdk Hcs eq_refl ltac:(lia)) as H.
    assert (Hnil : forall s, s +:+ EmptyString = s).
    { induction s as [|c s IH]; simpl; [done|]. now rewrite IH. }
    rewrite Hnil in H. now rewrite H.
  - pose proof (iterencode_no_ws v 0 EmptyString) as H.
    assert (Hnil : forall s, s +:+ EmptyString = s).
    { induction s as [|c s IH]; simpl; [done|]. now rewrite IH. }
    now rewrite Hnil in H.
Qed.

Lemma clean_strings_json_of_db (db : dict booking) :
  clean_db db = true -> clean_strings (json_of_db db).
Proof.
  unfold clean_db. rewrite forallb_forall. intros Hall.
  apply clean_strings_obj, Forall_map, Forall_forall. intros [k b] Hin.
  apply list_elem_of_In, Hall in Hin. cbn [fst snd] in Hin |- *.
  unfold clean_booking in Hin. rewrite !andb_true_iff in Hin.
  destruct Hin as (Hk & ((((H1 & H2) & H3) & H4) & H5) & H6).
  split; [exact Hk|]. unfold json_of_booking. apply clean_strings_obj.
  repeat (constructor; [split; [reflexivity | simpl; done]|]); constructor.
Qed.

Lemma distinct_keys_json_of_booking (b : booking) :
  distinct_keys (json_of_booking b).
Proof.
  apply distinct_keys_obj. split.
  - apply (bool_decide_unpack _). vm_compute. reflexivity.
  - repeat constructor.
Qed.

Lemma distinct_keys_json_of_db (db : dict booking) :
  NoDup (dict_keys db) -> distinct_keys (json_of_db db).
Proof.
  intros Hnd. apply distinct_keys_obj. split.
  - rewrite map_map. exact Hnd.
  - apply Forall_map, Forall_forall. intros kv _.
    apply distinct_keys_json_of_booking.
Qed.

Lemma booking_of_json_of_booking (b : booking) :
  booking_of_json (json_of_booking b) = Some b.
Proof. now destruct b. Qed.

Lemma db_of_json_of_db (db : dict booking) : db_of_json (json_of_db db) = Some db.
Proof.
  unfold db_of_json, json_of_db.
  induction db as [|[k b] db IH]; [reflexivity|].
  simpl map. cbn [mapM]. simpl snd. simpl fst.
  rewrite booking_of_json_of_booking. cbn [mbind option_bind].
  rewrite IH. reflexivity.
Qed.

Lemma read_resource_served (u : uri_arg) (st st' : state) (body : string) :
  read_resource u st = (Ok body, st') ->
  u = UriStr "booking://all" /\
  body = json_dumps (json_of_db (bookings_db st)) /\ st' = st.
Proof.
  unfold read_resource. destruct u as [s|rendered]; cbn [uri_eq uri_text].
  - destruct (String.eqb_spec s "booking://all") as [->|_]; [|discriminate].
    intros [= <- <-]. done.
  - discriminate.
Qed.




(** Every state the server reaches is such a dictionary. *)
Lemma reachable_distinct_keys (st : state) :
  reachable st -> NoDup (dict_keys (bookings_db st)).
Proof.
  intros [n (_ & -> & _)]%reachable_consistent. apply ids_from_1000_NoDup.
Qed.

(** ** Discovery agrees with dispatch *)

Lemma elem_of_tool_names (name : string) :
  name ∈ map tool_name list_tools <->
  name = "book_cab" \/ name = "check_booking_status" \/
  name = "list_available_cabs".
Proof.
  simpl. rewrite !elem_of_cons, elem_of_nil. tauto.
Qed.

(** X1.  The names [list_tools] advertises are exactly the names
    [call_tool] dispatches: for an advertised name no call is ever answered
    with the unknown-tool text, and for any other name every call is, with
    the state left as it was. *)
Theorem advertised_tools_are_dispatched
    (name : string) (arguments : gmap string string) (st : state) :
  (name ∈ map tool_name list_tools ->
   fst (call_tool name arguments st) <>
     Ok [ text_content ("Unknown tool: " +:+ name) ]) /\
  (name ∉ map tool_name list_tools ->
   call_tool name arguments st =
     (Ok [ text_content ("Unknown tool: " +:+ name) ], st)).
Proof.
  rewrite elem_of_tool_names. split.
  - intros Hname.
    destruct (first_missing (tool_keys name) arguments) as [k|] eqn:Hm.
    { now rewrite (call_tool_missing _ _ _ _ Hm). }
    pose proof (proj1 (first_missing_None _ _) Hm) as Hall.
    destruct Hname as [->|[->| ->]].
    + destruct (Hall "pickup_location") as [p Hp]; [set_solver|].
      destruct (Hall "dropoff_location") as [d Hd]; [set_solver|].
      destruct (Hall "pickup_datetime") as [t Ht]; [set_solver|].
      destruct (Hall "cab_type") as [c Hc]; [set_solver|].
      rewrite (book_cab_ok _ _ _ _ _ _ Hp Hd Ht Hc). discriminate.
    + destruct (Hall "booking_id") as [id Hid]; [set_solver|].
      destruct (dict_get id (bookings_db st)) as [b|] eqn:Hget.
      * rewrite (check_status_present _ _ _ _ Hid Hget). discriminate.
      * rewrite (check_status_absent _ _ _ Hid); [discriminate|].
        now apply dict_get_None.
    + destruct (Hall "location") as [l Hl]; [set_solver|].
      unfold call_tool. simpl. unfold_M. rewrite Hl. discriminate.
  - intros Hunknown.
    destruct (String.eqb_spec name "book_cab") as [|H1]; [tauto|].
    destruct (String.eqb_spec name "check_booking_status") as [|H2]; [tauto|].
    destruct (String.eqb_spec name "list_available_cabs") as [|H3]; [tauto|].
    unfold call_tool.
    apply String.eqb_neq in H1, H2, H3. now rewrite H1, H2, H3.
Qed.

Lemma required_keys_are_read (t : Tool) :
  t ∈ list_tools -> required (inputSchema t) = tool_keys (tool_name t).
Proof.
  unfold list_tools. rewrite !elem_of_cons, elem_of_nil.
  intros [->|[->|[->|[]]]]; reflexivity.
Qed.

(** X2.  For every tool [list_tools] advertises, a call returns content
    exactly when the arguments hold every key the advertised schema lists as
    required: a client that follows the schema never meets [KeyError], and a
    key the schema requires is really needed. *)
Theorem advertised_required_keys_decide_success
    (t : Tool) (arguments : gmap string string) (st : state) :
  t ∈ list_tools ->
  (forall k, k ∈ required (inputSchema t) -> is_Some (arguments !! k)) <->
  exists contents st',
    call_tool (tool_name t) arguments st = (Ok contents, st').
Proof.
  intros Ht. rewrite (required_keys_are_read t Ht), <- first_missing_None.
  split.
  - apply call_tool_present.
  - intros (contents & st' & Hok).
    destruct (first_missing (tool_keys (tool_name t)) arguments) as [k|] eqn:Hm;
      [|done].
    rewrite (call_tool_missing _ _ _ _ Hm) in Hok. discriminate.
Qed.

Lemma advertised_required_keys_decide_success_witness :
  exists contents st',
    call_tool "check_booking_status" {[ "booking_id" := "CAB1000" ]} initial =
      (Ok contents, st').
Proof.
  refine (proj1 (advertised_required_keys_decide_success
                   {| tool_name := "check_booking_status";
                      tool_description :=
                        "Checks the status of a booking by booking ID";
                      inputSchema :=
                        {| schema_type := "object";
                           properties :=
                             [ Property "booking_id" "string"
                                 "The booking reference ID (e.g., CAB1001)" ];
                           required := ["booking_id"] |} |}
                   {[ "booking_id" := "CAB1000" ]} initial _) _).
  - apply elem_of_cons. right. apply elem_of_cons. now left.
  - simpl. intros k Hk. apply elem_of_cons in Hk as [->|Hk].
    + exists "CAB1000". reflexivity.
    + now apply elem_of_nil in Hk.
Defined.


(** X4.  The names [list_prompts] advertises are exactly those
    [get_prompt] serves, every other name raising [ValueError]; whatever the
    name, the state is left as it was and what is returned or raised does
    not depend on it. *)
Theorem advertised_prompts_are_served (name : string) (st st' : state) :
  (name ∈ map prompt_name list_prompts <->
   exists messages, get_prompt name st = (Ok messages, st)) /\
  (name ∉ map prompt_name list_prompts <->
   get_prompt name st = (Raise (ValueError ("Unknown prompt: " +:+ name)), st)) /\
  snd (get_prompt name st) = st /\
  fst (get_prompt name st) = fst (get_prompt name st').
Proof.
  simpl. rewrite elem_of_cons, elem_of_nil. unfold get_prompt.
  destruct (String.eqb_spec name "booking_assistant") as [->|Hne].
  - repeat split; eauto; try discriminate. intros H. exfalso. apply H. now left.
  - repeat split; try tauto; try discriminate.
    all: try (intros [messages [=]]); try (intros [|[]]; done).
Qed.

(** ** Failed requests, and what a run amounts to *)

(** X5.  A request whose handler raises is a no-op, in any state: store and
    counter are exactly as before.  [book_cab] in particular reads all its
    arguments before it touches the counter. *)
Theorem failed_request_changes_nothing (r : request) (st : state) (e : exn) :
  fst (handle r st) = Raise e -> snd (handle r st) = st.
Proof.
  intros Hraise. destruct (is_book_cab r) eqn:Hb; [|now apply handle_frame].
  destruct r as [name arguments| |]; try discriminate.
  simpl in Hb. apply String.eqb_eq in Hb as ->.
  rewrite handle_call_tool in *. simpl in *.
  destruct (first_missing (tool_keys "book_cab") arguments) as [k|] eqn:Hm.
  - now rewrite (call_tool_missing _ _ _ _ Hm).
  - destruct (call_tool_present _ _ st Hm) as (contents & st' & Hok).
    rewrite Hok in Hraise. discriminate.
Qed.

Lemma failed_request_changes_nothing_witness :
  snd (handle (CallTool "book_cab" {[ "pickup_location" := "Airport" ]})
         (exec [CallTool "book_cab" airport_ride] initial)) =
    exec [CallTool "book_cab" airport_ride] initial.
Proof.
  exact (failed_request_changes_nothing
           (CallTool "book_cab" {[ "pickup_location" := "Airport" ]})
           (exec [CallTool "book_cab" airport_ride] initial)
           (KeyError "dropoff_location") eq_refl).
Defined.

Lemma rides_cons (r : request) (reqs : list request) :
  rides (r :: reqs) = rides [r] ++ rides reqs.
Proof.
  unfold rides. simpl.
  now destruct r as [name arguments| |];
    try destruct (String.eqb name "book_cab"); try destruct (ride_of arguments).
Qed.

(** One request: a [book_cab] with its four keys books the ride, and
    whether it succeeds is decided by the arguments alone. *)
Lemma handle_books (r : request) (st : state) :
  snd (handle r st) = fold_left book (rides [r]) st /\
  (if is_book_cab r && succeeded (fst (handle r st)) then 1 else 0)%nat
    = length (rides [r]).
Proof.
  destruct r as [name arguments|u|name].
  - rewrite handle_call_tool. unfold rides. simpl.
    destruct (String.eqb_spec name "book_cab") as [->|Hne].
    + unfold ride_of.
      destruct (arguments !! "pickup_location") as [p|] eqn:Hp;
        [|now rewrite (call_tool_missing "book_cab" _ _ "pickup_location");
              [|simpl; rewrite Hp]].
      destruct (arguments !! "dropoff_location") as [d|] eqn:Hd;
        [|now rewrite (call_tool_missing "book_cab" _ _ "dropoff_location");
              [|simpl; rewrite Hp, Hd]].
      destruct (arguments !! "pickup_datetime") as [t|] eqn:Ht;
        [|now rewrite (call_tool_missing "book_cab" _ _ "pickup_datetime");
              [|simpl; rewrite Hp, Hd, Ht]].
      destruct (arguments !! "cab_type") as [c|] eqn:Hc;
        [|now rewrite (call_tool_missing "book_cab" _ _ "cab_type");
              [|simpl; rewrite Hp, Hd, Ht, Hc]].
      now rewrite (book_cab_ok _ _ _ _ _ _ Hp Hd Ht Hc).
    + split; [now apply call_tool_frame | reflexivity].
  - split; [|reflexivity].
    exact (handle_frame (ReadResource u) st eq_refl).
  - split; [|reflexivity].
    exact (handle_frame (GetPrompt name) st eq_refl).
Qed.

(** A run is the fold of [book] over its rides. *)
Lemma exec_fold_book (reqs : list request) (st : state) :
  exec reqs st = fold_left book (rides reqs) st /\
  length (creations (fst (run reqs st))) = length (rides reqs).
Proof.
  revert st. induction reqs as [|r reqs IH]; intros st; [done|].
  rewrite exec_cons, creations_cons, rides_cons, fold_left_app, length_app.
  destruct (handle_books r st) as [-> ->].
  destruct (IH (fold_left book (rides [r]) st)) as [-> ->]. done.
Qed.

(** X6.  The state after a run is the state obtained by booking, in order,
    the rides of the [book_cab] requests that carry all four keys.  Every
    other request, and every [book_cab] that lacks a key, can be deleted
    from the run without changing where it ends; this holds from any
    state. *)
Theorem run_books_its_rides (reqs : list request) (st : state) :
  exec reqs st = fold_left book (rides reqs) st /\
  length (creations (fst (run reqs st))) = length (rides reqs).
Proof. apply exec_fold_book. Qed.

Lemma fold_book_counter (rs : list ride) (st : state) :
  booking_counter (fold_left book rs st) =
    booking_counter st + Z.of_nat (length rs).
Proof.
  revert st. induction rs as [|[[[p d] t] c] rs IH]; intros st; simpl.
  - lia.
  - rewrite IH. simpl. lia.
Qed.

Lemma exec_counter (reqs : list request) (st : state) :
  booking_counter (exec reqs st) =
    booking_counter st + Z.of_nat (length (rides reqs)).
Proof.
  rewrite (proj1 (exec_fold_book reqs st)). apply fold_book_counter.
Qed.

(** X7.  The counter moves in step with the bookings: from any state a run
    advances it by the number of rides booked, never otherwise; from the
    initial state it is always 1000 plus the number of stored bookings. *)
Theorem counter_counts_bookings (reqs : list request) (st : state) :
  booking_counter (exec reqs st) =
    booking_counter st + Z.of_nat (length (rides reqs)) /\
  booking_counter (exec reqs initial) =
    1000 + Z.of_nat (length (bookings_db (exec reqs initial))).
Proof.
  split.
  - apply exec_counter.
  - destruct (consistent_run reqs 0 initial consistent_initial)
      as (Hc & Hk & _).
    rewrite Hc. f_equal. f_equal.
    apply (f_equal (@length _)) in Hk. unfold dict_keys, ids_from_1000 in Hk.
    rewrite !length_map, length_seq in Hk. now rewrite Hk.
Qed.

Lemma book_consistent (n : nat) (st : state) (r : ride) :
  consistent n st ->
  consistent (S n) (book st r) /\
  bookings_db (book st r) = bookings_db st ++ [nth_entry n r].
Proof.
  intros Hcons. pose proof (fresh_id n st Hcons) as Hfresh.
  destruct Hcons as (Hc & Hk & Hall). destruct r as [[[p d] t] c].
  unfold book, nth_entry. simpl.
  rewrite (dict_set_fresh _ _ _ Hfresh). unfold new_booking. rewrite Hc.
  split; [|reflexivity]. repeat split; simpl.
  - lia.
  - unfold dict_keys in *. now rewrite map_app, Hk, ids_from_1000_S.
  - apply Forall_app. split; [done|]. now constructor.
Qed.

Lemma fold_book_entries (rs : list ride) (n : nat) (st : state) :
  consistent n st ->
  bookings_db (fold_left book rs st) =
    bookings_db st ++ imap (fun i => nth_entry (n + i)) rs.
Proof.
  revert n st. induction rs as [|r rs IH]; intros n st Hcons; simpl.
  - now rewrite app_nil_r.
  - destruct (book_consistent n st r Hcons) as [Hcons' Hdb].
    rewrite (IH (S n) _ Hcons'), Hdb, <- app_assoc. simpl.
    rewrite Nat.add_0_r. do 2 f_equal.
    apply imap_ext. intros i x _. simpl. f_equal. lia.
Qed.

(** X8.  The store after a run from the initial state, entry by entry: the
    ride number [i] among those booked is stored under the identifier of
    counter [1000 + i], with the four strings of its request, status
    ["confirmed"] and fare 50.0, and nothing else is stored. *)
Theorem store_lists_the_rides (reqs : list request) :
  bookings_db (exec reqs initial) = imap nth_entry (rides reqs).
Proof.
  rewrite (proj1 (exec_fold_book reqs initial)).
  now rewrite (fold_book_entries _ 0 initial consistent_initial).
Qed.

Lemma exec_app (reqs1 reqs2 : list request) (st : state) :
  exec (reqs1 ++ reqs2) st = exec reqs2 (exec reqs1 st).
Proof.
  revert st. induction reqs1 as [|r reqs1 IH]; intros st; [done|].
  simpl app. now rewrite !exec_cons, IH.
Qed.

(** X9.  A booking can be checked at any later time: after any requests,
    then a [book_cab] with its four keys, then any further requests,
    [check_booking_status] on the identifier that booking was given shows
    the four strings of the request, the status CONFIRMED and the fare
    $50.0, and changes nothing. *)
Theorem booking_can_be_checked_later
    (before after : list request) (arguments : gmap string string)
    (pickup dropoff datetime cab_type : string) :
  arguments !! "pickup_location" = Some pickup ->
  arguments !! "dropoff_location" = Some dropoff ->
  arguments !! "pickup_datetime" = Some datetime ->
  arguments !! "cab_type" = Some cab_type ->
  let id := "CAB" +:+ str_int (1000 + Z.of_nat (length (rides before))) in
  let st := exec (before ++ CallTool "book_cab" arguments :: after) initial in
  call_tool "check_booking_status" {[ "booking_id" := id ]} st =
    (Ok [ text_content
            (" Booking Status" +:+ nl +:+ nl +:+
             "                           Booking ID: " +:+ id +:+ nl +:+
             "                           Status: CONFIRMED" +:+ nl +:+
             "                           Pickup: " +:+ pickup +:+ nl +:+
             "                           Drop-off: " +:+ dropoff +:+ nl +:+
             "                           Time: " +:+ datetime +:+ nl +:+
             "                           Cab Type: " +:+ cab_type +:+ nl +:+
             "                           Fare: $50.0" +:+ nl +:+
             "                        ") ],
     st).
Proof.
  intros Hp Hd Ht Hc id st.
  set (st0 := exec before initial).
  set (r := CallTool "book_cab" arguments).
  pose proof (consistent_run before 0 initial consistent_initial) as Hcons0.
  fold st0 in Hcons0.
  pose proof (consistent_step _ st0 r Hcons0) as Hcons1.
  assert (Hid : id = make_id (booking_counter st0)).
  { unfold id, make_id, st0.
    now rewrite (exec_counter before initial). }
  assert (Hst : st = exec after (snd (handle r st0))).
  { unfold st. now rewrite exec_app, exec_cons. }
  assert (Hget : dict_get id (bookings_db (snd (handle r st0))) =
                 Some (new_booking st0 pickup dropoff datetime cab_type)).
  { unfold r. rewrite handle_call_tool.
    rewrite (book_cab_ok _ _ _ _ _ _ Hp Hd Ht Hc). simpl.
    rewrite Hid. apply dict_get_set_eq. }
  apply (dict_get_exec _ _ after _ _ Hcons1) in Hget. rewrite <- Hst in Hget.
  rewrite (check_status_present _ st id _ (lookup_singleton_eq _ _) Hget).
  unfold new_booking. rewrite <- Hid. reflexivity.
Qed.

Lemma booking_can_be_checked_later_witness :
  exists body,
    call_tool "check_booking_status" {[ "booking_id" := "CAB1000" ]}
      (exec ([] ++ CallTool "book_cab" airport_ride ::
                   [CallTool "book_cab" station_ride]) initial) =
      (Ok [ text_content body ],
       exec ([] ++ CallTool "book_cab" airport_ride ::
                   [CallTool "book_cab" station_ride]) initial).
Proof.
  eexists.
  exact (booking_can_be_checked_later
           [] [CallTool "book_cab" station_ride] airport_ride
           "Airport" "Downtown" "2024-01-01T10:00:00" "Premium"
           eq_refl eq_refl eq_refl eq_refl).
Defined.

(** X10.  A tool reads only its own keys: two argument mappings that agree
    on the keys the named tool reads give the same result and the same
    state, whatever else they hold. *)
Theorem call_tool_reads_only_its_keys
    (name : string) (arguments arguments' : gmap string string) (st : state) :
  (forall k, k ∈ tool_keys name -> arguments !! k = arguments' !! k) ->
  call_tool name arguments st = call_tool name arguments' st.
Proof.
  unfold call_tool, tool_keys. intros Hagree.
  destruct (String.eqb name "book_cab");
    [|destruct (String.eqb name "check_booking_status");
      [|destruct (String.eqb name "list_available_cabs")]];
    unfold_M; simpl;
    repeat match goal with
      | |- context [arguments !! ?key] =>
          rewrite (Hagree key) by (rewrite !elem_of_cons; tauto)
      end;
    reflexivity.
Qed.

Lemma call_tool_reads_only_its_keys_witness :
  call_tool "check_booking_status"
    {[ "booking_id" := "CAB1000"; "verbose" := "yes" ]} initial =
  call_tool "check_booking_status" {[ "booking_id" := "CAB1000" ]} initial.
Proof.
  apply call_tool_reads_only_its_keys.
  simpl. intros k Hk. apply elem_of_cons in Hk as [->|Hk].
  - reflexivity.
  - now apply elem_of_nil in Hk.
Defined.

(** X11.  Whenever [call_tool] returns, it returns exactly one content
    item, and that item is of type text. *)
Theorem call_tool_returns_one_text
    (name : string) (arguments : gmap string string) (st : state)
    (contents : list TextContent) :
  fst (call_tool name arguments st) = Ok contents ->
  exists s, contents = [ {| type := "text"; text := s |} ].
Proof.
  unfold call_tool.
  destruct (String.eqb name "book_cab");
    [|destruct (String.eqb name "check_booking_status");
      [|destruct (String.eqb name "list_available_cabs")]];
    unfold_M; simpl;
    repeat match goal with
      | |- context [arguments !! ?key] =>
          destruct (arguments !! key) eqn:?; simpl
      end;
    try discriminate; try (intros [= <-]; eauto).
  destruct (dict_contains s (bookings_db st)); simpl.
  - destruct (dict_get s (bookings_db st)); simpl;
      [intros [= <-]; eauto | discriminate].
  - intros [= <-]. eauto.
Qed.

Lemma call_tool_returns_one_text_witness :
  exists s,
    [ text_content (cabs_text "Airport") ] = [ {| type := "text"; text := s |} ].
Proof.
  exact (call_tool_returns_one_text
           "list_available_cabs" {[ "location" := "Airport" ]} initial
           [ text_content (cabs_text "Airport") ] eq_refl).
Defined.

(** X12.  The body of [booking://all] determines the store: if
    [read_resource] returns the same body in two states whose stores have
    pairwise distinct keys and strings without surrogate pair, the two
    stores hold the same bookings under the same identifiers in the same
    order. *)
Theorem snapshot_determines_store
    (st1 st2 : state) (u1 u2 : uri_arg) (body : string) :
  NoDup (dict_keys (bookings_db st1)) ->
  NoDup (dict_keys (bookings_db st2)) ->
  clean_db (bookings_db st1) = true ->
  clean_db (bookings_db st2) = true ->
  fst (read_resource u1 st1) = Ok body ->
  fst (read_resource u2 st2) = Ok body ->
  bookings_db st1 = bookings_db st2.
Proof.
  intros Hnd1 Hnd2 Hc1 Hc2 H1 H2.
  destruct (read_resource u1 st1) as [r1 st1'] eqn:Hr1.
  destruct (read_resource u2 st2) as [r2 st2'] eqn:Hr2.
  simpl in H1, H2. subst r1 r2.
  apply read_resource_served in Hr1 as (_ & Hb1 & _).
  apply read_resource_served in Hr2 as (_ & Hb2 & _).
  assert (Hback : forall db,
             NoDup (dict_keys db) -> clean_db db = true ->
             json_loads (json_dumps (json_of_db db)) ≫= db_of_json = Some db).
  { intros db Hnd Hc.
    rewrite (json_loads_dumps _ (distinct_keys_json_of_db _ Hnd)
               (clean_strings_json_of_db _ Hc)).
    apply db_of_json_of_db. }
  pose proof (Hback _ Hnd1 Hc1) as E1. pose proof (Hback _ Hnd2 Hc2) as E2.
  rewrite <- Hb1 in E1. rewrite <- Hb2 in E2. congruence.
Qed.

Lemma snapshot_determines_store_witness :
  bookings_db
    (exec [CallTool "book_cab" tokyo_ride; GetPrompt "booking_assistant"]
       initial) =
  bookings_db (exec [CallTool "book_cab" tokyo_ride] initial).
Proof.
  apply (snapshot_determines_store _ _ "booking://all" "booking://all"
           (json_dumps
              (json_of_db
                 (bookings_db (exec [CallTool "book_cab" tokyo_ride] initial))))).
  - apply (bool_decide_unpack _). vm_compute. reflexivity.
  - apply (bool_decide_unpack _). vm_compute. reflexivity.
  - vm_compute. reflexivity.
  - vm_compute. reflexivity.
  - reflexivity.
  - reflexivity.
Defined.

(** ** The resource body is plain ASCII *)

Lemma json_nested_ind (P : json -> Prop) :
  (forall s, P (JStr s)) ->
  (forall x, P (JFloat x)) ->
  (forall items, Forall (fun kv => P (snd kv)) items -> P (JObj items)) ->
  forall v, P v.
Proof.
  intros Hs Hf Ho. fix IH 1. intros [s|x|items].
  - apply Hs.
  - apply Hf.
  - apply Ho. induction items as [|kv items IHitems]; constructor.
    + apply IH.
    + apply IHitems.
Qed.

Lemma all_plain_append (a b : string) :
  all_plain (a +:+ b) = all_plain a && all_plain b.
Proof.
  induction a as [|c a IH]; simpl; [done|].
  now rewrite IH, andb_assoc.
Qed.

Lemma is_plain_hex_digit (d : N) : (d < 16)%N -> is_plain (hex_digit d) = true.
Proof.
  intros Hd. apply (small_cases (fun d => is_plain (hex_digit d) = true) 16 d Hd).
  simpl. repeat constructor.
Qed.

Lemma all_plain_u_escape (v : N) : all_plain (u_escape v) = true.
Proof.
  unfold u_escape, hex4. cbn [all_plain].
  now rewrite !is_plain_hex_digit by (apply N.mod_lt; discriminate).
Qed.

Lemma all_plain_escape_code_point (cp : N) :
  all_plain (escape_code_point cp) = true.
Proof.
  destruct (decide (cp = 34%N)) as [->|?]; [reflexivity|].
  destruct (decide (cp = 92%N)) as [->|?]; [reflexivity|].
  destruct (decide (cp = 10%N)) as [->|?]; [reflexivity|].
  destruct (decide (cp = 13%N)) as [->|?]; [reflexivity|].
  destruct (decide (cp = 9%N)) as [->|?]; [reflexivity|].
  destruct (decide (cp = 8%N)) as [->|?]; [reflexivity|].
  destruct (decide (cp = 12%N)) as [->|?]; [reflexivity|].
  rewrite escape_code_point_other by done.
  destruct ((32 <=? cp) && (cp <=? 126))%N eqn:Hprint.
  - apply andb_true_iff in Hprint as [H1%N.leb_le H2%N.leb_le].
    cbn [all_plain]. unfold is_plain. rewrite N_of_ascii_of_N by lia.
    rewrite andb_true_r. apply orb_true_iff. right.
    apply andb_true_iff. split; now apply N.leb_le.
  - destruct (cp <? 65536)%N; [apply all_plain_u_escape|].
    now rewrite all_plain_append, !all_plain_u_escape.
Qed.

Lemma all_plain_escape (s : string) : all_plain (escape s) = true.
Proof.
  unfold escape. induction (code_points s) as [|cp cps IH]; [reflexivity|].
  cbn [escape_code_points].
  now rewrite all_plain_append, all_plain_escape_code_point, IH.
Qed.

Lemma all_plain_digits (s : string) : all_digits s = true -> all_plain s = true.
Proof.
  induction s as [|c s IH]; simpl; [done|].
  intros [Hc Hs]%andb_true_iff. rewrite (IH Hs), andb_true_r.
  destruct c as [[] [] [] [] [] [] [] []]; try discriminate; reflexivity.
Qed.

Lemma all_plain_str_float (x : pyfloat) : all_plain (str_float x) = true.
Proof.
  destruct x as [n]. unfold str_float. rewrite all_plain_append, andb_true_r.
  destruct (str_int_shape n) as (c & ds & Hc & Hds & [->| ->]).
  - apply (all_plain_digits (String c ds)). simpl. now rewrite Hc.
  - change (all_plain (String "-" (String c ds)))
      with (all_plain (String c ds)).
    apply all_plain_digits. simpl. now rewrite Hc.
Qed.

Lemma all_plain_indentation (level : nat) : all_plain (indentation level) = true.
Proof. induction level as [|level IH]; [reflexivity | exact IH]. Qed.

Lemma all_plain_join (sep : string) (chunks : list string) :
  all_plain sep = true -> Forall (fun c => all_plain c = true) chunks ->
  all_plain (join sep chunks) = true.
Proof.
  intros Hsep. induction 1 as [|c chunks Hc _ IH]; [reflexivity|].
  destruct chunks as [|c' chunks]; [exact Hc|].
  rewrite join_cons_cons, !all_plain_append, Hc, Hsep. exact IH.
Qed.

Lemma all_plain_iterencode (v : json) :
  forall level, all_plain (iterencode v level) = true.
Proof.
  induction v as [s|x|items IH] using json_nested_ind; intros level.
  - unfold iterencode, encode_basestring_ascii.
    change (all_plain (String dquote (escape s +:+ String dquote "")))
      with (all_plain (escape s +:+ String dquote "")).
    now rewrite all_plain_append, all_plain_escape.
  - apply all_plain_str_float.
  - destruct items as [|kv items]; [reflexivity|].
    rewrite iterencode_obj, !all_plain_append, !all_plain_indentation.
    rewrite all_plain_join; [reflexivity| |].
    + unfold item_separator.
      now rewrite !all_plain_append, all_plain_indentation.
    + apply Forall_map. eapply Forall_impl; [exact IH|].
      intros [k v] Hv. unfold member_text, encode_basestring_ascii. simpl.
      change (all_plain (String dquote ?t)) with (all_plain t).
      rewrite !all_plain_append, all_plain_escape. simpl. apply Hv.
Qed.

(** X13.  Whatever [str] the bookings hold, a body that [read_resource]
    returns consists of printable ASCII characters and newlines only: the
    quote, the backslash, the control characters and every code point from
    U+007F on leave the encoder escaped, those from U+10000 on as a
    surrogate pair. *)
Theorem resource_body_is_plain_ascii
    (u : uri_arg) (st : state) (body : string) :
  fst (read_resource u st) = Ok body ->
  all_plain body = true.
Proof.
  intros Hread. destruct (read_resource u st) as [r st'] eqn:Hr.
  simpl in Hread. subst r.
  apply read_resource_served in Hr as (_ & -> & _).
  apply all_plain_iterencode.
Qed.

Lemma resource_body_is_plain_ascii_witness :
  all_plain
    (json_dumps
       (json_of_db
          (bookings_db
             (exec [CallTool "book_cab" tokyo_ride;
                    CallTool "book_cab" surrogate_pair_ride] initial)))) = true.
Proof.
  exact (resource_body_is_plain_ascii
           "booking://all"
           (exec [CallTool "book_cab" tokyo_ride;
                  CallTool "book_cab" surrogate_pair_ride] initial) _ eq_refl).
Defined.

(** ** The two read-only tools *)

(** X14.  [list_available_cabs] only echoes the location: for every
    location and in every state the answer is the same three lines under a
    heading that names the location, and the state is left as it was.
    Neither the location nor the bookings made so far change what is
    listed. *)
Theorem available_cabs_only_echo_location
    (arguments : gmap string string) (location : string) (st : state) :
  arguments !! "location" = Some location ->
  call_tool "list_available_cabs" arguments st =
    (Ok [ text_content
            (" Available Cabs near " +:+ location +:+ ":" +:+ nl +:+ nl +:+
             "• Standard: 5 available (ETA: 3 mins)" +:+ nl +:+
             "• Premium: 3 available (ETA: 5 mins)" +:+ nl +:+
             "• Luxury: 1 available (ETA: 8 mins)" +:+ nl) ],
     st).
Proof.
  intros Hl. unfold call_tool. simpl. unfold_M. rewrite Hl.
  unfold cabs_text, available_cabs. cbn [fold_left].
  now rewrite !append_assoc.
Qed.

Lemma available_cabs_only_echo_location_witness :
  fst (call_tool "list_available_cabs" {[ "location" := "Harbour" ]}
         (exec [CallTool "book_cab" airport_ride] initial)) =
  fst (call_tool "list_available_cabs" {[ "location" := "Harbour" ]} initial).
Proof.
  rewrite (available_cabs_only_echo_location
             {[ "location" := "Harbour" ]} "Harbour"
             (exec [CallTool "book_cab" airport_ride] initial)
             (lookup_singleton_eq "location" "Harbour")).
  reflexivity.
Defined.

(** X15.  [check_booking_status] answers with the not-found text exactly
    for the identifiers that are not keys of the store: a stored booking is
    never reported missing, in any state. *)
Theorem not_found_exactly_for_absent_ids
    (arguments : gmap string string) (id : string) (st : state) :
  arguments !! "booking_id" = Some id ->
  fst (call_tool "check_booking_status" arguments st) =
    Ok [ text_content
           ("Booking " +:+ id +:+ " not found. Please check the booking ID.") ]
  <-> dict_contains id (bookings_db st) = false.
Proof.
  intros Hid. destruct (dict_get id (bookings_db st)) as [b|] eqn:Hget.
  - rewrite (check_status_present _ _ _ _ Hid Hget).
    assert (dict_contains id (bookings_db st) = true) as ->
      by (apply dict_contains_get; eauto).
    split; discriminate.
  - assert (Hnin : id ∉ dict_keys (bookings_db st)) by now apply dict_get_None.
    rewrite (check_status_absent _ _ _ Hid Hnin).
    split; [|reflexivity]. intros _.
    destruct (dict_contains id (bookings_db st)) eqn:Hin; [|done].
    now apply dict_contains_keys in Hin.
Qed.

Lemma not_found_exactly_for_absent_ids_witness :
  dict_contains "CAB1001"
    (bookings_db (exec [CallTool "book_cab" airport_ride] initial)) = false.
Proof.
  exact (proj1 (not_found_exactly_for_absent_ids
                  {[ "booking_id" := "CAB1001" ]} "CAB1001"
                  (exec [CallTool "book_cab" airport_ride] initial) eq_refl)
           eq_refl).
Defined.
